(** * Session lifecycle controller (src/contexts/AuthContext.tsx)

    A shallow embedding of the React authentication context: the state held
    by [AuthProvider], the closures it defines on every render, and the
    effects those closures perform (state setters, [localStorage], the
    console, timers and the calls to the hosted auth / data service).

    Asynchronous functions are embedded as effect trees: every setter call
    and every awaited service call is a visible node, so that the same
    definition can be run sequentially against scripted service answers and
    interleaved with other pending functions at its suspension points. *)

From stdpp Require Import base strings gmap list.

Set Default Proof Using "Type".
Open Scope string_scope.
Open Scope list_scope.

(** ** Data model *)

(** [User.user_metadata] of the auth client: the two keys the code reads. *)
Record UserMetadata := {
  full_name : option string;
  avatar_url : option string
}.

(** [User] of the auth client ([email] is optional there). *)
Record User := {
  id : string;
  email : option string;
  user_metadata : UserMetadata
}.

(** [Session] of the auth client: opaque credentials plus the identity. *)
Record Session := {
  access_token : string;
  session_user : User
}.

(** Modelled from the spec: the declaration of [UserProfile] lives in
    lib/supabase, which is not part of the sources at hand.  The fields are
    those of the spec's data model, which are also the keys of the object
    literal that [createUserProfile] inserts. *)
Record UserProfile := {
  profile_id : string;
  profile_email : string;
  profile_full_name : option string;
  profile_avatar_url : option string;
  subscription_status : string
}.

(** Errors reported in the [error] field of a service answer. *)
Record AuthError := { auth_message : string }.
Record PostgrestError := { code : string; pg_message : string }.

(** Values that can be thrown.  [AuthError] extends [Error] in the client
    library and a [DOMException] inherits from [Error] in the browser, so all
    but the last are [instanceof Error]. *)
Inductive thrown :=
| ThrownAuthError (e : AuthError)
| ThrownError (message : string)
| ThrownDOMException (name message : string)
| ThrownValue (repr : string).

(** A completion: how the evaluation of a statement, or an awaited promise,
    ends. *)
Inductive completion (A : Type) :=
| Normal (a : A)
| Throw (t : thrown).
Arguments Normal {A} a.
Arguments Throw {A} t.

(** Answers of the hosted service. *)
Record GetSessionResult := {
  gs_session : option Session;
  gs_error : option AuthError
}.
Record QueryResult := {
  q_data : option UserProfile;
  q_error : option PostgrestError
}.

(** The React state of [AuthProvider] (the six [useState] cells). *)
Record Store := {
  user : option User;
  userProfile : option UserProfile;
  session : option Session;
  loading : bool;
  isInitialized : bool;
  sessionError : option string
}.

(** The values passed to [useState] on the first render. *)
Definition initial_state : Store :=
  {| user := None; userProfile := None; session := None;
     loading := true; isInitialized := false; sessionError := None |}.

(** ** Effects *)

Inductive eff : Type → Type :=
| setUser (u : option User) : eff unit
| setUserProfile (p : option UserProfile) : eff unit
| setSession (s : option Session) : eff unit
| setLoading (b : bool) : eff unit
| setIsInitialized (b : bool) : eff unit
| setSessionError (e : option string) : eff unit
| console_log (msg : string) : eff unit
| console_error (msg : string) : eff unit
| typeof_window : eff bool
| localStorage_setItem (key value : string) : eff (completion unit)
| localStorage_getItem (key : string) : eff (option string)
| localStorage_removeItem (key : string) : eff unit
| window_location_pathname : eff (completion string)
| window_location_origin : eff (completion string)
| setTimeout_navigate (href : string) (ms : nat) : eff unit
| auth_getSession : eff (completion GetSessionResult)
| auth_signOut : eff (completion (option AuthError))
| auth_signInWithOAuth (provider redirectTo : string)
    : eff (completion (option AuthError))
| from_select_eq_single (table column value : string)
    : eff (completion QueryResult)
| from_insert_select_single (table : string) (rows : list UserProfile)
    : eff (completion QueryResult).

(** Effect trees. *)
Inductive prog (A : Type) : Type :=
| Ret (a : A)
| Vis {X : Type} (e : eff X) (k : X → prog A).
Arguments Ret {A} a.
Arguments Vis {A X} e k.

Fixpoint pbind {A B} (p : prog A) (f : A → prog B) : prog B :=
  match p with
  | Ret a => f a
  | Vis e k => Vis e (λ x, pbind (k x) f)
  end.

(** Statements: effect trees ending in a completion. *)
Definition js (A : Type) : Type := prog (completion A).

Definition js_ret {A} (a : A) : js A := Ret (Normal a).
Definition js_throw {A} (t : thrown) : js A := Ret (Throw t).
Definition js_bind {A B} (m : js A) (f : A → js B) : js B :=
  pbind m (λ c, match c with Normal a => f a | Throw t => Ret (Throw t) end).

(** A call that cannot throw. *)
Definition perform {X} (e : eff X) : js X := Vis e (λ x, Ret (Normal x)).
(** A call (or an awaited promise) that may throw (or reject). *)
Definition await {X} (e : eff (completion X)) : js X := Vis e (λ c, Ret c).

(** [try { body } catch (error) { handler error }] *)
Definition try_catch {A} (body : js A) (handler : thrown → js A) : js A :=
  pbind body (λ c, match c with Normal a => Ret (Normal a) | Throw t => handler t end).

(** [try { body } finally { fin }]: [fin] runs on both completions and the
    completion of [body] is kept unless [fin] itself throws. *)
Definition try_finally {A} (body : js A) (fin : js unit) : js A :=
  pbind body (λ c,
    pbind fin (λ cf, match cf with Normal _ => Ret c | Throw t => Ret (Throw t) end)).

Declare Scope js_scope.
Delimit Scope js_scope with js.
Notation "'let*' x ':=' m 'in' k" := (js_bind m (λ x, k))
  (at level 10, x name, m at level 100, k at level 200) : js_scope.
Notation "m '>>' k" := (js_bind m (λ _, k))
  (at level 100, k at level 200, right associativity) : js_scope.
Open Scope js_scope.

(** ** JavaScript operators used by the code *)

(** [x || ''] on an optional string: the empty string is falsy. *)
Definition or_empty (x : option string) : string :=
  match x with Some s => s | None => "" end.

(** [x || null] on an optional string. *)
Definition or_null (x : option string) : option string :=
  match x with
  | Some s => if String.eqb s "" then None else Some s
  | None => None
  end.

(** Truthiness of [string | null]. *)
Definition truthy (x : option string) : bool :=
  match x with
  | Some s => negb (String.eqb s "")
  | None => false
  end.

(** [error instanceof Error ? error.message : 'Unknown error'] *)
Definition message_of (t : thrown) : string :=
  match t with
  | ThrownAuthError e => auth_message e
  | ThrownError m => m
  | ThrownDOMException _ m => m
  | ThrownValue _ => "Unknown error"
  end.

(** ** The controller's closures

    Every render of [AuthProvider] defines the functions below afresh; each
    closes over the state values of that render.  The render's state is the
    parameter [r]: a function reads [user] or [loading] from [r], never from
    the state as it is when the function runs. *)

Definition storeUserLocation (path : string) : js unit :=
  let* window := perform typeof_window in
  if window : bool then await (localStorage_setItem "lastUserLocation" path)
  else js_ret ().

Definition getStoredLocation : js (option string) :=
  let* window := perform typeof_window in
  if window : bool then perform (localStorage_getItem "lastUserLocation")
  else js_ret None.

Definition clearStoredLocation : js unit :=
  let* window := perform typeof_window in
  if window : bool then perform (localStorage_removeItem "lastUserLocation")
  else js_ret ().

(** The object literal inserted by [createUserProfile]. *)
Definition new_profile (r : Store) (userId : string) : UserProfile :=
  {| profile_id := userId;
     profile_email := or_empty (user r ≫= email);
     profile_full_name := or_null (user r ≫= λ u, full_name (user_metadata u));
     profile_avatar_url := or_null (user r ≫= λ u, avatar_url (user_metadata u));
     subscription_status := "free" |}.

Definition createUserProfile (r : Store) (userId : string) : js unit :=
  try_catch
    (let* res := await (from_insert_select_single "user_profiles"
                          [new_profile r userId]) in
     match q_error res with
     | Some _ => perform (console_error "Error creating user profile:")
     | None => perform (setUserProfile (q_data res))
     end)
    (λ _, perform (console_error "Error in createUserProfile:")).

(** [error && error.code !== 'PGRST116'] *)
Definition other_failure (error : option PostgrestError) : bool :=
  match error with
  | Some e => negb (String.eqb (code e) "PGRST116")
  | None => false
  end.

Definition fetchUserProfile (r : Store) (userId : string) : js unit :=
  try_catch
    (let* res := await (from_select_eq_single "user_profiles" "id" userId) in
     if other_failure (q_error res)
     then perform (console_error "Error fetching user profile:")
     else match q_data res with
          | Some data => perform (setUserProfile (Some data))
          | None => createUserProfile r userId
          end)
    (λ _, perform (console_error "Error in fetchUserProfile:")).

Definition getInitialSession (r : Store) : js unit :=
  try_finally
    (try_catch
       (perform (setLoading true) >>
        perform (setSessionError None) >>
        perform (console_log "Initializing session...") >>
        let* res := await auth_getSession in
        match gs_error res with
        | Some error =>
            perform (console_error "Error getting session:") >>
            perform (setSessionError (Some (auth_message error)))
        | None =>
            perform (console_log "Session retrieved:") >>
            perform (setSession (gs_session res)) >>
            perform (setUser (session_user <$> gs_session res)) >>
            match gs_session res with
            | Some s => fetchUserProfile r (id (session_user s))
            | None => js_ret ()
            end
        end)
       (λ error,
          perform (console_error "Error in getInitialSession:") >>
          perform (setSessionError (Some (message_of error)))))
    (perform (setLoading false) >>
     perform (setIsInitialized true) >>
     perform (console_log "Session initialization complete")).

(** The handler passed to [onAuthStateChange]. *)
Definition onAuthStateChange (r : Store) (event : string)
    (session : option Session) : js unit :=
  perform (console_log "Auth state change:") >>
  perform (setSession session) >>
  perform (setUser (session_user <$> session)) >>
  match session with
  | Some s => fetchUserProfile r (id (session_user s))
  | None => perform (setUserProfile None)
  end >>
  (if String.eqb event "SIGNED_IN" then
     let* lastLocation := getStoredLocation in
     match lastLocation with
     | Some href =>
         if truthy lastLocation
            && negb (String.eqb href "/auth/callback")
            && negb (String.eqb href "/")
         then perform (setTimeout_navigate href 100)
         else js_ret ()
     | None => js_ret ()
     end
   else js_ret ()) >>
  (if String.eqb event "SIGNED_OUT" then clearStoredLocation else js_ret ()) >>
  (if negb (loading r) then perform (setLoading false) else js_ret ()).

(** The navigation-tracking effect, run after a render whose [user] or
    [isInitialized] changed. *)
Definition trackNavigation (r : Store) : js unit :=
  if bool_decide (is_Some (user r)) && isInitialized r then
    let* currentPath := await window_location_pathname in
    if negb (String.eqb currentPath "/auth/callback")
    then storeUserLocation currentPath
    else js_ret ()
  else js_ret ().

Definition signInWithGoogle : js unit :=
  try_catch
    (let* currentPath := await window_location_pathname in
     (if negb (String.eqb currentPath "/auth/callback")
      then storeUserLocation currentPath
      else js_ret ()) >>
     let* origin := await window_location_origin in
     let* error := await (auth_signInWithOAuth "google"
                            (origin +:+ "/auth/callback")) in
     match error with
     | Some e =>
         perform (console_error "Error signing in with Google:") >>
         js_throw (ThrownAuthError e)
     | None => js_ret ()
     end)
    (λ error,
       perform (console_error "Error in signInWithGoogle:") >>
       js_throw error).

Definition signOut : js unit :=
  try_finally
    (try_catch
       (perform (setLoading true) >>
        let* error := await auth_signOut in
        match error with
        | Some e =>
            perform (console_error "Error signing out:") >>
            js_throw (ThrownAuthError e)
        | None => js_ret ()
        end)
       (λ error,
          perform (console_error "Error in signOut:") >>
          js_throw error))
    (perform (setLoading false) >>
     clearStoredLocation).

Definition restoreSession (r : Store) : js unit :=
  try_finally
    (try_catch
       (perform (setLoading true) >>
        let* res := await auth_getSession in
        match gs_error res with
        | Some _ => perform (console_error "Error restoring session:")
        | None =>
            match gs_session res with
            | Some s =>
                perform (setSession (Some s)) >>
                perform (setUser (Some (session_user s))) >>
                fetchUserProfile r (id (session_user s))
            | None => js_ret ()
            end
        end)
       (λ _, perform (console_error "Error in restoreSession:")))
    (perform (setLoading false)).

(** The mount effect ([useEffect] with an empty dependency list) runs once,
    after the first render, so the two functions it creates close over the
    first render's state and keep doing so for the controller's lifetime. *)
Definition mount_getInitialSession : js unit := getInitialSession initial_state.
Definition mount_listener (event : string) (session : option Session) : js unit :=
  onAuthStateChange initial_state event session.

(** ** The consumer hook *)

Record AuthContextType := {
  ctx_user : option User;
  ctx_userProfile : option UserProfile;
  ctx_session : option Session;
  ctx_loading : bool;
  ctx_isInitialized : bool;
  ctx_signInWithGoogle : js unit;
  ctx_signOut : js unit;
  ctx_restoreSession : js unit
}.

(** The [value] object a render with state [r] hands to its provider. *)
Definition value (r : Store) : AuthContextType :=
  {| ctx_user := user r;
     ctx_userProfile := userProfile r;
     ctx_session := session r;
     ctx_loading := loading r;
     ctx_isInitialized := isInitialized r;
     ctx_signInWithGoogle := signInWithGoogle;
     ctx_signOut := signOut;
     ctx_restoreSession := restoreSession r |}.

(** [useContext(AuthContext)]: the value of the nearest enclosing provider
    (the head of [providers], innermost first), or the default given to
    [createContext], which is [undefined]. *)
Definition useContext (providers : list Store) : option AuthContextType :=
  match providers with
  | r :: _ => Some (value r)
  | [] => None
  end.

Definition useAuth (providers : list Store) : completion AuthContextType :=
  match useContext providers with
  | None => Throw (ThrownError "useAuth must be used within an AuthProvider")
  | Some context => Normal context
  end.

(** ** The world the closures run in *)

Inductive log_entry :=
| Log (msg : string)
| Error (msg : string).

(** Requests sent to the hosted service. *)
Inductive request :=
| GetSession
| SignOut
| SignInWithOAuth (provider redirectTo : string)
| SelectSingle (table column value : string)
| InsertSingle (table : string) (rows : list UserProfile).

Record world := {
  state : Store;                       (* the latest React state *)
  window : bool;                       (* typeof window !== 'undefined' *)
  localStorage : gmap string string;
  setItem_refusal : gmap string string → option string;
                                       (* the browser's storage quota *)
  pathname : string;                   (* window.location.pathname *)
  origin : string;                     (* window.location.origin *)
  console : list log_entry;            (* oldest first *)
  timers : list (string * nat);        (* scheduled navigations *)
  requests : list request              (* oldest first *)
}.

(** How the hosted service settles each call. *)
Record backend := {
  answer_getSession : completion GetSessionResult;
  answer_signOut : completion (option AuthError);
  answer_signInWithOAuth : string → string → completion (option AuthError);
  answer_select : string → string → string → completion QueryResult;
  answer_insert : string → list UserProfile → completion QueryResult
}.

Definition with_state (f : Store → Store) (w : world) : world :=
  {| state := f (state w); window := window w;
     localStorage := localStorage w;
     setItem_refusal := setItem_refusal w; pathname := pathname w;
     origin := origin w; console := console w; timers := timers w;
     requests := requests w |}.

Definition with_localStorage (f : gmap string string → gmap string string)
    (w : world) : world :=
  {| state := state w; window := window w;
     localStorage := f (localStorage w);
     setItem_refusal := setItem_refusal w; pathname := pathname w;
     origin := origin w; console := console w; timers := timers w;
     requests := requests w |}.

Definition with_pathname (path : string) (w : world) : world :=
  {| state := state w; window := window w;
     localStorage := localStorage w;
     setItem_refusal := setItem_refusal w; pathname := path;
     origin := origin w; console := console w; timers := timers w;
     requests := requests w |}.

Definition print (entry : log_entry) (w : world) : world :=
  {| state := state w; window := window w;
     localStorage := localStorage w;
     setItem_refusal := setItem_refusal w; pathname := pathname w;
     origin := origin w; console := console w ++ [entry]; timers := timers w;
     requests := requests w |}.

Definition schedule (href : string) (ms : nat) (w : world) : world :=
  {| state := state w; window := window w;
     localStorage := localStorage w;
     setItem_refusal := setItem_refusal w; pathname := pathname w;
     origin := origin w; console := console w;
     timers := timers w ++ [(href, ms)]; requests := requests w |}.

Definition send (req : request) (w : world) : world :=
  {| state := state w; window := window w;
     localStorage := localStorage w;
     setItem_refusal := setItem_refusal w; pathname := pathname w;
     origin := origin w; console := console w; timers := timers w;
     requests := requests w ++ [req] |}.

Definition set_user u (s : Store) : Store :=
  {| user := u; userProfile := userProfile s; session := session s;
     loading := loading s; isInitialized := isInitialized s;
     sessionError := sessionError s |}.
Definition set_userProfile p (s : Store) : Store :=
  {| user := user s; userProfile := p; session := session s;
     loading := loading s; isInitialized := isInitialized s;
     sessionError := sessionError s |}.
Definition set_session x (s : Store) : Store :=
  {| user := user s; userProfile := userProfile s; session := x;
     loading := loading s; isInitialized := isInitialized s;
     sessionError := sessionError s |}.
Definition set_loading b (s : Store) : Store :=
  {| user := user s; userProfile := userProfile s; session := session s;
     loading := b; isInitialized := isInitialized s;
     sessionError := sessionError s |}.
Definition set_isInitialized b (s : Store) : Store :=
  {| user := user s; userProfile := userProfile s; session := session s;
     loading := loading s; isInitialized := b;
     sessionError := sessionError s |}.
Definition set_sessionError e (s : Store) : Store :=
  {| user := user s; userProfile := userProfile s; session := session s;
     loading := loading s; isInitialized := isInitialized s;
     sessionError := e |}.

(** [window.location.x]: a [ReferenceError] where there is no window. *)
Definition window_read (w : world) (x : string) : completion string :=
  if window w then Normal x else Throw (ThrownError "window is not defined").

(** [localStorage.setItem(k, v)]: the browser decides, from the contents the
    write would produce, whether they fit its quota ([None]) or not (the
    message of the [QuotaExceededError] it throws); a refused write leaves
    the storage as it was. *)
Definition setItem (k v : string) (w : world) : completion unit * world :=
  match setItem_refusal w (<[k := v]> (localStorage w)) with
  | None => (Normal (), with_localStorage (insert k v) w)
  | Some message => (Throw (ThrownDOMException "QuotaExceededError" message), w)
  end.

(** One effect.  Every [localStorage] access of the code sits behind a
    [typeof window] test, so the storage is only reached with a window. *)
Definition handle (b : backend) {X} (e : eff X) (w : world) : X * world :=
  match e in eff X return X * world with
  | setUser u => ((), with_state (set_user u) w)
  | setUserProfile p => ((), with_state (set_userProfile p) w)
  | setSession s => ((), with_state (set_session s) w)
  | setLoading l => ((), with_state (set_loading l) w)
  | setIsInitialized i => ((), with_state (set_isInitialized i) w)
  | setSessionError e => ((), with_state (set_sessionError e) w)
  | console_log msg => ((), print (Log msg) w)
  | console_error msg => ((), print (Error msg) w)
  | typeof_window => (window w, w)
  | localStorage_setItem k v => setItem k v w
  | localStorage_getItem k => (localStorage w !! k, w)
  | localStorage_removeItem k => ((), with_localStorage (delete k) w)
  | window_location_pathname => (window_read w (pathname w), w)
  | window_location_origin => (window_read w (origin w), w)
  | setTimeout_navigate href ms => ((), schedule href ms w)
  | auth_getSession => (answer_getSession b, send GetSession w)
  | auth_signOut => (answer_signOut b, send SignOut w)
  | auth_signInWithOAuth provider redirectTo =>
      (answer_signInWithOAuth b provider redirectTo,
       send (SignInWithOAuth provider redirectTo) w)
  | from_select_eq_single table column v =>
      (answer_select b table column v, send (SelectSingle table column v) w)
  | from_insert_select_single table rows =>
      (answer_insert b table rows, send (InsertSingle table rows) w)
  end.

(** Running a closure to completion, uninterrupted, against one backend. *)
Fixpoint run {A} (b : backend) (p : prog A) (w : world) : A * world :=
  match p with
  | Ret a => (a, w)
  | Vis e k => let '(x, w') := handle b e w in run b (k x) w'
  end.

Definition result {A} (b : backend) (p : prog A) (w : world) : A :=
  fst (run b p w).
Definition after {A} (b : backend) (p : prog A) (w : world) : world :=
  snd (run b p w).

(** ** One controller lifetime, with interleaving

    Task 0 is [getInitialSession], started by the mount effect.  The other
    tasks are the functions started later: the listener, once per delivered
    auth event, and the closures of any render, called by the rendering
    layer.  A started function advances one effect at a time, so the
    schedules below include every order in which the pending functions can
    resume from their suspension points. *)

Inductive op :=
| AuthEvent (event : string) (session : option Session)
| CallSignOut
| CallRestoreSession (r : Store)
| CallSignInWithGoogle
| TrackNavigation (r : Store).

Definition start (o : op) : js unit :=
  match o with
  | AuthEvent event session => mount_listener event session
  | CallSignOut => signOut
  | CallRestoreSession r => restoreSession r
  | CallSignInWithGoogle => signInWithGoogle
  | TrackNavigation r => trackNavigation r
  end.

Inductive action :=
| Resume (task : nat) (b : backend)  (* the task performs its next effect *)
| Start (o : op)                     (* an event is delivered, a closure called *)
| Navigate (path : string).         (* the location changes *)

Record system := {
  sys_world : world;
  tasks : list (js unit)
}.

Definition mount (w : world) : system :=
  {| sys_world := with_state (λ _, initial_state) w;
     tasks := [mount_getInitialSession] |}.

Definition act (a : action) (s : system) : system :=
  match a with
  | Resume i b =>
      match tasks s !! i with
      | Some (Vis e k) =>
          let '(x, w') := handle b e (sys_world s) in
          {| sys_world := w'; tasks := <[i := k x]> (tasks s) |}
      | _ => s
      end
  | Start o => {| sys_world := sys_world s; tasks := tasks s ++ [start o] |}
  | Navigate path =>
      {| sys_world := with_pathname path (sys_world s); tasks := tasks s |}
  end.

(** The states a schedule goes through, the starting state first. *)
Fixpoint exec (acts : list action) (s : system) : list system :=
  s :: match acts with
       | [] => []
       | a :: rest => exec rest (act a s)
       end.

Definition initialized (s : system) : bool := isInitialized (state (sys_world s)).

(** Task 0 has returned or thrown. *)
Definition bootstrap_done (s : system) : bool :=
  match tasks s !! 0 with
  | Some (Ret _) => true
  | _ => false
  end.

(** Number of places where a flag goes from [false] to [true], and back. *)
Fixpoint rises (l : list bool) : nat :=
  match l with
  | a :: (b :: _) as rest => (if negb a && b then 1 else 0) + rises rest
  | _ => 0
  end.
Fixpoint falls (l : list bool) : nat :=
  match l with
  | a :: (b :: _) as rest => (if a && negb b then 1 else 0) + falls rest
  | _ => 0
  end.

(** ** Outcomes of the service calls, as the closures tell them apart *)

(** The session fetch failed: the message the closures have at hand, from
    the rejection ([catch]) or from the answer's [error] field. *)
Definition session_fetch_failure (c : completion GetSessionResult)
    : option string :=
  match c with
  | Normal res => auth_message <$> gs_error res
  | Throw t => Some (message_of t)
  end.

(** The session [restoreSession] gets to store: the one of an answer
    without error. *)
Definition restorable (c : completion GetSessionResult) : option Session :=
  match c with
  | Normal res =>
      match gs_error res with
      | Some _ => None
      | None => gs_session res
      end
  | Throw _ => None
  end.

(** ** Sample identities, service behaviours and worlds *)

Definition user_u1 : User :=
  {| id := "u1"; email := Some "u1@example.com";
     user_metadata := {| full_name := Some "Una"; avatar_url := None |} |}.
Definition user_u2 : User :=
  {| id := "u2"; email := Some "u2@example.com";
     user_metadata := {| full_name := Some "Dos"; avatar_url := Some "" |} |}.
Definition session_u1 : Session :=
  {| access_token := "token-1"; session_user := user_u1 |}.

Definition row_u1 : UserProfile :=
  {| profile_id := "u1"; profile_email := "u1@example.com";
     profile_full_name := Some "Una"; profile_avatar_url := None;
     subscription_status := "pro" |}.

Definition no_rows : QueryResult :=
  {| q_data := None;
     q_error := Some {| code := "PGRST116"; pg_message := "0 rows" |} |}.

(** A service with no session, where [u1] has a profile row and nobody else
    has, and where inserts succeed. *)
Definition backend_one_row : backend :=
  {| answer_getSession := Normal {| gs_session := None; gs_error := None |};
     answer_signOut := Normal None;
     answer_signInWithOAuth := λ _ _, Normal None;
     answer_select := λ _ _ v,
       if String.eqb v "u1"
       then Normal {| q_data := Some row_u1; q_error := None |}
       else Normal no_rows;
     answer_insert := λ _ rows,
       Normal {| q_data := head rows; q_error := None |} |}.

(** The same service holding a session for [u1]. *)
Definition backend_session_u1 : backend :=
  {| answer_getSession :=
       Normal {| gs_session := Some session_u1; gs_error := None |};
     answer_signOut := answer_signOut backend_one_row;
     answer_signInWithOAuth := answer_signInWithOAuth backend_one_row;
     answer_select := answer_select backend_one_row;
     answer_insert := answer_insert backend_one_row |}.

(** A service that cannot be reached: every call rejects. *)
Definition backend_down : backend :=
  {| answer_getSession := Throw (ThrownError "Failed to fetch");
     answer_signOut := Throw (ThrownError "Failed to fetch");
     answer_signInWithOAuth := λ _ _, Throw (ThrownError "Failed to fetch");
     answer_select := λ _ _ _, Throw (ThrownError "Failed to fetch");
     answer_insert := λ _ _, Throw (ThrownError "Failed to fetch") |}.

(** A service whose sign-out reports an error. *)
Definition backend_signOut_error : backend :=
  {| answer_getSession := answer_getSession backend_one_row;
     answer_signOut := Normal (Some {| auth_message := "session missing" |});
     answer_signInWithOAuth := answer_signInWithOAuth backend_one_row;
     answer_select := answer_select backend_one_row;
     answer_insert := answer_insert backend_one_row |}.

(** A browser tab on /dashboard, just mounted. *)
Definition browser : world :=
  {| state := initial_state; window := true; localStorage := ∅;
     setItem_refusal := λ _, None;
     pathname := "/dashboard"; origin := "https://app.example";
     console := []; timers := []; requests := [] |}.

(** A browser tab where [u1] is signed in and /dashboard is remembered. *)
Definition signed_in_browser : world :=
  {| state := {| user := Some user_u1; userProfile := Some row_u1;
                 session := Some session_u1; loading := false;
                 isInitialized := true; sessionError := None |};
     window := true;
     localStorage := {[ "lastUserLocation" := "/dashboard" ]};
     setItem_refusal := λ _, None;
     pathname := "/dashboard"; origin := "https://app.example";
     console := []; timers := []; requests := [] |}.

(** The tab during the bootstrap of a signed-in user: session and identity
    are stored, the profile is not resolved yet. *)
Definition resolving_browser : world :=
  {| state := {| user := Some user_u1; userProfile := None;
                 session := Some session_u1; loading := true;
                 isInitialized := false; sessionError := None |};
     window := true; localStorage := ∅; setItem_refusal := λ _, None;
     pathname := "/dashboard"; origin := "https://app.example";
     console := []; timers := []; requests := [] |}.

(** A lifetime in which the first auth event and a call to [signOut]
    interleave with the bootstrap sequence. *)
Definition sample_schedule : list action :=
  let b := backend_session_u1 in
  [Resume 0 b; Resume 0 b;
   Start (AuthEvent "INITIAL_SESSION" (Some session_u1));
   Resume 1 b; Resume 0 b; Resume 0 b; Resume 1 b; Resume 1 b;
   Start CallSignOut; Resume 2 b]
  ++ replicate 9 (Resume 0 b)
  ++ [Resume 2 b; Resume 0 b; Resume 0 b; Resume 2 b; Resume 2 b; Resume 2 b].

(** ** Which effects a closure can perform *)

(** [all_effects P p]: every effect on every path of [p] satisfies [P]. *)
Fixpoint all_effects (P : ∀ X, eff X → Prop) {A} (p : prog A) : Prop :=
  match p with
  | Ret _ => True
  | Vis e k => P _ e ∧ ∀ x, all_effects P (k x)
  end.

Definition not_setLoading X (e : eff X) : Prop :=
  match e with setLoading _ => False | _ => True end.

(** The effects of resolving a profile. *)
Definition profile_only X (e : eff X) : Prop :=
  match e with
  | setUserProfile _ | console_error _
  | from_select_eq_single _ _ _ | from_insert_select_single _ _ => True
  | _ => False
  end.

Definition not_setIsInitialized X (e : eff X) : Prop :=
  match e with setIsInitialized _ => False | _ => True end.

Definition is_setIsInitialized_true X (e : eff X) : Prop :=
  match e with setIsInitialized true => True | _ => False end.

(** [initializes p]: on every path [p] calls [setIsInitialized(true)] once,
    and calls [setIsInitialized] at no other place. *)
Fixpoint initializes {A} (p : prog A) : Prop :=
  match p with
  | Ret _ => False
  | Vis e k =>
      (is_setIsInitialized_true _ e
       ∧ ∀ x, all_effects not_setIsInitialized (k x))
      ∨ (not_setIsInitialized _ e ∧ ∀ x, initializes (k x))
  end.

(** [all_leaves Q p]: every way [p] can end satisfies [Q]. *)
Fixpoint all_leaves {A} (Q : A → Prop) (p : prog A) : Prop :=
  match p with
  | Ret a => Q a
  | Vis e k => ∀ x, all_leaves Q (k x)
  end.

Definition returns_normally {A} (c : completion A) : Prop :=
  match c with Normal _ => True | Throw _ => False end.

(** What holds of the tasks of a lifetime: until [isInitialized] is set,
    task 0 is still on its way to setting it; afterwards task 0 never touches
    it again; and the other tasks never touch it. *)
Definition lifetime_invariant (s : system) : Prop :=
  ∃ boot others,
    tasks s = boot :: others
    ∧ (if initialized s then all_effects not_setIsInitialized boot
       else initializes boot)
    ∧ Forall (all_effects not_setIsInitialized) others.

(** ** The order of the bootstrap sequence *)

Definition is_console_log X (e : eff X) : Prop :=
  match e with console_log _ => True | _ => False end.

Definition is_getSession {X} (e : eff X) : bool :=
  match e with auth_getSession => true | _ => false end.

(** [initializes_after_fetch fetched p]: on every path, [p] calls
    [setIsInitialized(true)] once, only after the session fetch has been
    answered ([fetched] tells whether it already has), and does nothing but
    log afterwards; it calls [setIsInitialized] at no other place. *)
Fixpoint initializes_after_fetch {A} (fetched : bool) (p : prog A) : Prop :=
  match p with
  | Ret _ => False
  | Vis e k =>
      (is_setIsInitialized_true _ e ∧ fetched = true
       ∧ ∀ x, all_effects is_console_log (k x))
      ∨ (not_setIsInitialized _ e
         ∧ ∀ x, initializes_after_fetch (fetched || is_getSession e) (k x))
  end.

(** What holds of a lifetime mounted in [w0]: the requests only grow; once
    [isInitialized] is set, the session fetch is among the requests sent
    since the mount and task 0 has nothing left to do but log; until then
    task 0 is on its way to fetching, then setting the flag. *)
Definition bootstrap_order (w0 : world) (s : system) : Prop :=
  ∃ boot others sent,
    tasks s = boot :: others
    ∧ requests (sys_world s) = requests w0 ++ sent
    ∧ Forall (all_effects not_setIsInitialized) others
    ∧ (if initialized s
       then GetSession ∈ sent ∧ all_effects is_console_log boot
       else ∃ fetched, initializes_after_fetch fetched boot
                       ∧ (fetched = true → GetSession ∈ sent)).

(** ** The store operation as the callers perform it

    Both callers of [storeUserLocation] (lines 185-187 and 195-197) test the
    path first: the OAuth-callback path is never handed to it. *)
Definition store_unless_callback (path : string) : js unit :=
  if negb (String.eqb path "/auth/callback") then storeUserLocation path
  else js_ret ().

(** A quota on the storage: contents longer than [limit] characters, keys
    and values together, are refused. *)
Definition quota_policy (limit : nat) (m : gmap string string)
    : option string :=
  if decide (map_fold (λ k v n, String.length k + String.length v + n) 0 m
             ≤ limit)%nat
  then None else Some "The quota has been exceeded.".

(** A signed-in tab that remembers /dashboard and whose storage has room for
    thirty characters. *)
Definition small_quota_browser : world :=
  {| state := {| user := Some user_u1; userProfile := Some row_u1;
                 session := Some session_u1; loading := false;
                 isInitialized := true; sessionError := None |};
     window := true;
     localStorage := {[ "lastUserLocation" := "/dashboard" ]};
     setItem_refusal := quota_policy 30;
     pathname := "/portfolio/holdings"; origin := "https://app.example";
     console := []; timers := []; requests := [] |}.

(** A service whose profile query is refused for lack of permission. *)
Definition backend_permission_denied : backend :=
  {| answer_getSession := Normal {| gs_session := None; gs_error := None |};
     answer_signOut := Normal None;
     answer_signInWithOAuth := λ _ _, Normal None;
     answer_select := λ _ _ _,
       Normal {| q_data := None;
                 q_error := Some {| code := "42501";
                                    pg_message := "permission denied" |} |};
     answer_insert := λ _ rows,
       Normal {| q_data := head rows; q_error := None |} |}.

(** ** The parts of the auth-event handler

    The handler is a sequence: it mirrors the payload (lines 97-98), then
    resolves or clears the profile (lines 100-104), then deals with the
    remembered location and the [loading] flag (lines 106-124).  The two
    later parts are named here so that they can be reasoned about one at a
    time; [onAuthStateChange] is their sequence. *)

Definition resolve_or_clear (r : Store) (session : option Session) : js unit :=
  match session with
  | Some s => fetchUserProfile r (id (session_user s))
  | None => perform (setUserProfile None)
  end.

Definition settle (r : Store) (event : string) : js unit :=
  (if String.eqb event "SIGNED_IN" then
     let* lastLocation := getStoredLocation in
     match lastLocation with
     | Some href =>
         if truthy lastLocation
            && negb (String.eqb href "/auth/callback")
            && negb (String.eqb href "/")
         then perform (setTimeout_navigate href 100)
         else js_ret ()
     | None => js_ret ()
     end
   else js_ret ()) >>
  (if String.eqb event "SIGNED_OUT" then clearStoredLocation else js_ret ()) >>
  (if negb (loading r) then perform (setLoading false) else js_ret ()).

(** The external stream delivers events one after the other; each is
    processed to completion by the listener registered at mount. *)
Definition process_events (b : backend)
    (events : list (string * option Session)) (w : world) : world :=
  fold_left (λ w ev, after b (mount_listener ev.1 ev.2) w) events w.

(** The insert of a new profile failed: the promise rejected or the answer
    carries an error. *)
Definition insert_failed (c : completion QueryResult) : bool :=
  match c with
  | Normal res => bool_decide (is_Some (q_error res))
  | Throw _ => true
  end.

(** A path the sign-in branch of the handler navigates back to. *)
Definition restorable_location (href : string) : bool :=
  negb (String.eqb href "")
  && negb (String.eqb href "/auth/callback")
  && negb (String.eqb href "/").

(** Effects that write neither the session nor the identity. *)
Definition not_setSession_setUser X (e : eff X) : Prop :=
  match e with setSession _ | setUser _ => False | _ => True end.

(** Effects that leave the React state alone. *)
Definition not_a_setter X (e : eff X) : Prop :=
  match e with
  | setUser _ | setUserProfile _ | setSession _ | setLoading _
  | setIsInitialized _ | setSessionError _ => False
  | _ => True
  end.

(** Effects that send nothing to the hosted service. *)
Definition not_a_request X (e : eff X) : Prop :=
  match e with
  | auth_getSession | auth_signOut | auth_signInWithOAuth _ _
  | from_select_eq_single _ _ _ | from_insert_select_single _ _ => False
  | _ => True
  end.

(** What resolving a profile leaves alone: everything but the stored
    profile, the console and the request log. *)
Definition outside_profile (w : world) :=
  (user (state w), session (state w), loading (state w),
   isInitialized (state w), sessionError (state w),
   window w, localStorage w, pathname w, origin w, timers w).

(** ** The [loading] flag across pending functions *)

Definition is_setLoading (v : bool) X (e : eff X) : Prop :=
  match e with setLoading l => l = v | _ => False end.

(** [clears_loading p]: on every path [p] calls [setLoading(false)]. *)
Fixpoint clears_loading {A} (p : prog A) : Prop :=
  match p with
  | Ret _ => False
  | Vis e k => is_setLoading false _ e ∨ ∀ x, clears_loading (k x)
  end.

(** [loading_bracketed p]: wherever [p] calls [setLoading(true)], a call of
    [setLoading(false)] follows on every path. *)
Fixpoint loading_bracketed {A} (p : prog A) : Prop :=
  match p with
  | Ret _ => True
  | Vis e k =>
      (∀ x, loading_bracketed (k x))
      ∧ (is_setLoading true _ e → ∀ x, clears_loading (k x))
  end.

(** Every started function has returned or thrown. *)
Definition quiescent (s : system) : bool :=
  forallb (λ p, match p with Ret _ => true | Vis _ _ => false end) (tasks s).

(** While [loading] is set, some pending function is bound to clear it. *)
Definition loading_invariant (s : system) : Prop :=
  Forall loading_bracketed (tasks s)
  ∧ (loading (state (sys_world s)) = true → Exists clears_loading (tasks s)).

(** [sample_schedule] continued until the listener has finished too. *)
Definition quiescent_schedule : list action :=
  sample_schedule ++ replicate 2 (Resume 1 backend_session_u1).

(** ** A race between two resolutions

    Two auth events, for [s1] and then for [s2], each resolving a profile
    that exists.  The handler of the first event is suspended in its profile
    query while the handler of the second runs up to its own stored profile;
    then the first resumes.  Tasks 1 and 2 are the two handlers; [b1] and
    [b2] are the service as it answers each of them. *)
Definition race_schedule (s1 s2 : Session) (b1 b2 : backend) : list action :=
  [Start (AuthEvent "TOKEN_REFRESHED" (Some s1));
   Start (AuthEvent "TOKEN_REFRESHED" (Some s2))]
  ++ replicate 4 (Resume 1 b1)      (* log, setSession, setUser, query sent *)
  ++ replicate 5 (Resume 2 b2)      (* ... and the profile of [s2] stored *)
  ++ [Resume 1 b1].                 (* the first handler stores its answer *)

(** A service that answers every profile query with [row]. *)
Definition backend_with_row (row : UserProfile) : backend :=
  {| answer_getSession := Normal {| gs_session := None; gs_error := None |};
     answer_signOut := Normal None;
     answer_signInWithOAuth := λ _ _, Normal None;
     answer_select := λ _ _ _, Normal {| q_data := Some row; q_error := None |};
     answer_insert := λ _ _, Normal {| q_data := Some row; q_error := None |} |}.

(** A world without window (the component evaluated outside a browser). *)
Definition headless : world :=
  {| state := initial_state; window := false; localStorage := ∅;
     setItem_refusal := λ _, None;
     pathname := ""; origin := "";
     console := []; timers := []; requests := [] |}.

(** A service holding a session for [u2], who has no profile row yet. *)
Definition backend_new_user : backend :=
  {| answer_getSession :=
       Normal {| gs_session :=
                   Some {| access_token := "token-2"; session_user := user_u2 |};
                 gs_error := None |};
     answer_signOut := answer_signOut backend_one_row;
     answer_signInWithOAuth := answer_signInWithOAuth backend_one_row;
     answer_select := answer_select backend_one_row;
     answer_insert := answer_insert backend_one_row |}.

(** ** The connection status indicator (ConnectionStatus component)

    What the component reads from [useRealtimeConnection]; the hook itself is
    not among the sources, so its result is a parameter.  [H] is the type of
    event handlers. *)
Record RealtimeConnection (H : Type) := {
  isConnecting : bool;          (* status.isConnecting *)
  reconnect : H;
  isHealthy : bool;
  canRetry : bool
}.
Arguments isConnecting {H} _.
Arguments reconnect {H} _.
Arguments isHealthy {H} _.
Arguments canRetry {H} _.

(** React elements: text, and tags (or components) with their class name,
    click handler and children. *)
#[warnings="-register-all"]
Inductive element (H : Type) :=
| text (s : string)
| tag (name className : string) (onClick : option H)
      (children : list (element H)).
Arguments text {H} s.
Arguments tag {H} name className onClick children.

Definition ConnectionStatus {H} (c : RealtimeConnection H) : element H :=
  if isHealthy c then
    tag "div" "flex items-center space-x-2 text-green-600 text-sm" None
      [tag "CheckCircle" "w-4 h-4" None [];
       tag "span" "" None [text "Connected"]]
  else if isConnecting c then
    tag "div" "flex items-center space-x-2 text-blue-600 text-sm" None
      [tag "div" "animate-spin rounded-full h-4 w-4 border-b-2 border-blue-600"
         None [];
       tag "span" "" None [text "Connecting..."]]
  else
    tag "div" "flex items-center space-x-2 text-red-600 text-sm" None
      ([tag "WifiOff" "w-4 h-4" None [];
        tag "span" "" None [text "Connection Error"]]
       ++ (if canRetry c
           then [tag "button"
                   "ml-2 px-2 py-1 bg-red-100 text-red-700 rounded text-xs hover:bg-red-200"
                   (Some (reconnect c)) [text "Retry"]]
           else [])).

(** The texts an element shows, in order, and the handlers it can fire. *)
Fixpoint texts {H} (e : element H) : list string :=
  match e with
  | text s => [s]
  | tag _ _ _ children =>
      (fix go (l : list (element H)) : list string :=
         match l with
         | [] => []
         | c :: l' => texts c ++ go l'
         end) children
  end.

Fixpoint handlers {H} (e : element H) : list H :=
  match e with
  | text _ => []
  | tag _ _ onClick children =>
      match onClick with Some h => [h] | None => [] end
      ++ (fix go (l : list (element H)) : list H :=
            match l with
            | [] => []
            | c :: l' => handlers c ++ go l'
            end) children
  end.

(** * Properties *)

(** ** Running effect trees *)

Lemma run_pbind {A B} b (p : prog A) (f : A → prog B) w :
  run b (pbind p f) w = let '(a, w') := run b p w in run b (f a) w'.
Proof.
  revert w. induction p as [a | X e k IH]; intros w; cbn; [done |].
  destruct (handle b e w) as [x w']. apply IH.
Qed.

Lemma all_effects_pbind P {A B} (p : prog A) (f : A → prog B) :
  all_effects P p → (∀ a, all_effects P (f a)) → all_effects P (pbind p f).
Proof.
  intros Hp Hf. induction p as [a | X e k IH]; cbn in *; [apply Hf |].
  destruct Hp as [He Hk]. split; [exact He |]. intros x. apply IH, Hk.
Qed.

Lemma initializes_pbind_r {A B} (p : prog A) (f : A → prog B) :
  all_effects not_setIsInitialized p → (∀ a, initializes (f a)) →
  initializes (pbind p f).
Proof.
  intros Hp Hf. induction p as [a | X e k IH]; cbn in *; [apply Hf |].
  destruct Hp as [He Hk]. right. split; [exact He |]. intros x. apply IH, Hk.
Qed.

(** An observation of the world that none of the effects of [p] changes is
    the same after [p] as before. *)
Lemma run_frame {O} (obs : world → O) (P : ∀ X, eff X → Prop) :
  (∀ X (e : eff X) b w, P X e → obs (snd (handle b e w)) = obs w) →
  ∀ A (p : prog A) b w, all_effects P p → obs (after b p w) = obs w.
Proof.
  intros Hframe A p b. unfold after.
  induction p as [a | X e k IH]; intros w Hp; cbn in *; [done |].
  destruct Hp as [He Hk]. specialize (Hframe X e b w He).
  destruct (handle b e w) as [x w']. rewrite IH by apply Hk. exact Hframe.
Qed.

Lemma handle_not_setLoading X (e : eff X) b w :
  not_setLoading X e → loading (state (snd (handle b e w))) = loading (state w).
Proof.
  destruct e; cbn; intros; try done;
    unfold setItem; by destruct (setItem_refusal _ _).
Qed.

Lemma handle_not_setIsInitialized X (e : eff X) b w :
  not_setIsInitialized X e →
  isInitialized (state (snd (handle b e w))) = isInitialized (state w).
Proof.
  destruct e; cbn; intros; try done;
    unfold setItem; by destruct (setItem_refusal _ _).
Qed.

Lemma handle_setIsInitialized_true X (e : eff X) b w :
  is_setIsInitialized_true X e →
  isInitialized (state (snd (handle b e w))) = true.
Proof. destruct e as [| | | |[]| | | | | | | | | | | | | | |]; cbn; by intros. Qed.

Arguments fetchUserProfile : simpl never.

(** Walking an effect tree: split on whatever the control flow inspects. *)
Ltac walk :=
  repeat (cbn; intros;
    lazymatch goal with
    | |- True => exact I
    | |- _ ∧ _ => split
    | |- all_effects _ (pbind _ _) => apply all_effects_pbind
    | |- all_effects _ (match ?x with _ => _ end) => destruct x
    | |- all_effects _ (js_ret _) => unfold js_ret
    | |- all_effects _ (js_throw _) => unfold js_throw
    | |- all_effects _ (perform _) => unfold perform
    | |- all_effects _ (await _) => unfold await
    | |- all_effects _ (js_bind _ _) => unfold js_bind
    | |- all_effects _ (try_catch _ _) => unfold try_catch
    | |- all_effects _ (try_finally _ _) => unfold try_finally
    end).

Lemma fetchUserProfile_not_setLoading r userId :
  all_effects not_setLoading (fetchUserProfile r userId).
Proof. unfold fetchUserProfile, createUserProfile. walk. Qed.

Lemma fetchUserProfile_not_setIsInitialized r userId :
  all_effects not_setIsInitialized (fetchUserProfile r userId).
Proof. unfold fetchUserProfile, createUserProfile. walk. Qed.

Lemma onAuthStateChange_not_setLoading r event session :
  loading r = true →
  all_effects not_setLoading (onAuthStateChange r event session).
Proof.
  intros Hr. unfold onAuthStateChange. rewrite Hr.
  pose proof fetchUserProfile_not_setLoading.
  unfold js_bind, getStoredLocation, clearStoredLocation. walk; auto; walk.
Qed.

Lemma onAuthStateChange_not_setIsInitialized r event session :
  all_effects not_setIsInitialized (onAuthStateChange r event session).
Proof.
  pose proof fetchUserProfile_not_setIsInitialized.
  unfold onAuthStateChange, js_bind, getStoredLocation, clearStoredLocation.
  walk; auto; walk.
Qed.

Lemma signOut_not_setIsInitialized :
  all_effects not_setIsInitialized signOut.
Proof. unfold signOut. walk. Qed.

Lemma restoreSession_not_setIsInitialized r :
  all_effects not_setIsInitialized (restoreSession r).
Proof.
  pose proof fetchUserProfile_not_setIsInitialized.
  unfold restoreSession, try_finally, try_catch, js_bind. walk; auto; walk.
Qed.

Lemma signInWithGoogle_not_setIsInitialized :
  all_effects not_setIsInitialized signInWithGoogle.
Proof. unfold signInWithGoogle. walk. Qed.

Lemma trackNavigation_not_setIsInitialized r :
  all_effects not_setIsInitialized (trackNavigation r).
Proof. unfold trackNavigation. walk. Qed.

Lemma start_not_setIsInitialized o :
  all_effects not_setIsInitialized (start o).
Proof.
  destruct o; cbn [start].
  - apply onAuthStateChange_not_setIsInitialized.
  - apply signOut_not_setIsInitialized.
  - apply restoreSession_not_setIsInitialized.
  - apply signInWithGoogle_not_setIsInitialized.
  - apply trackNavigation_not_setIsInitialized.
Qed.

Lemma getInitialSession_initializes r : initializes (getInitialSession r).
Proof.
  unfold getInitialSession, try_finally.
  apply initializes_pbind_r.
  - pose proof fetchUserProfile_not_setIsInitialized.
    unfold try_catch, js_bind. walk; auto; walk.
  - intros c. cbn. right. split; [exact I |]. intros _.
    left. split; [exact I |]. intros _. walk.
Qed.

(** ** The [isInitialized] flag over a controller lifetime *)

Lemma lifetime_invariant_mount w : lifetime_invariant (mount w).
Proof.
  exists mount_getInitialSession, []. split; [reflexivity |].
  split; [apply getInitialSession_initializes | constructor].
Qed.

Lemma lifetime_invariant_act a s :
  lifetime_invariant s →
  lifetime_invariant (act a s)
  ∧ (initialized s = true → initialized (act a s) = true).
Proof.
  intros (boot & others & Htasks & Hboot & Hothers).
  destruct a as [i b | o | path]; cbn [act].
  - destruct (tasks s !! i) as [[c | X e k] |] eqn:Hi;
      try (split; [by exists boot, others | done]).
    destruct (handle b e (sys_world s)) as [x w'] eqn:Hh.
    assert (Hw' : w' = snd (handle b e (sys_world s))) by by rewrite Hh.
    rewrite Htasks in Hi |- *. destruct i as [| i]; cbn in Hi.
    + injection Hi as ->. unfold initialized in *. cbn.
      destruct (isInitialized (state (sys_world s))) eqn:Hinit.
      * destruct Hboot as [He Hk].
        pose proof (handle_not_setIsInitialized X e b (sys_world s) He) as E.
        rewrite <- Hw', Hinit in E. split; [| done].
        exists (k x), others. unfold initialized; cbn. rewrite E. by split_and!.
      * split; [| done]. exists (k x), others. unfold initialized; cbn.
        destruct Hboot as [[He Hk] | [He Hk]].
        -- pose proof (handle_setIsInitialized_true X e b (sys_world s) He) as E.
           rewrite <- Hw' in E. rewrite E. by split_and!.
        -- pose proof (handle_not_setIsInitialized X e b (sys_world s) He) as E.
           rewrite <- Hw', Hinit in E. rewrite E. by split_and!.
    + pose proof (Forall_lookup_1 _ _ _ _ Hothers Hi) as [He Hk].
      pose proof (handle_not_setIsInitialized X e b (sys_world s) He) as E.
      rewrite <- Hw' in E. unfold initialized in *. cbn. rewrite E.
      split; [| done]. exists boot, (<[i := k x]> others).
      unfold initialized; cbn. rewrite E.
      split_and!; [done | done |]. apply Forall_insert; [done | apply Hk].
  - split; [| done]. exists boot, (others ++ [start o]).
    rewrite Htasks. split_and!; [done | done |].
    apply Forall_app. split; [done |].
    constructor; [apply start_not_setIsInitialized | constructor].
  - split; [| done]. by exists boot, others.
Qed.

Lemma rises_cons a b l :
  rises (a :: b :: l) = (if negb a && b then 1 else 0) + rises (b :: l).
Proof. reflexivity. Qed.

Lemma falls_cons a b l :
  falls (a :: b :: l) = (if a && negb b then 1 else 0) + falls (b :: l).
Proof. reflexivity. Qed.

Lemma exec_unfold acts s :
  ∃ rest, exec acts s = s :: rest.
Proof. destruct acts; cbn; eauto. Qed.

(** Along any schedule the flag never falls, and it rises exactly when it is
    unset at the start and set at the end. *)
Lemma exec_initialized acts s :
  lifetime_invariant s →
  ∃ s', last (exec acts s) = Some s'
    ∧ lifetime_invariant s'
    ∧ falls (initialized <$> exec acts s) = 0
    ∧ rises (initialized <$> exec acts s)
      = (if negb (initialized s) && initialized s' then 1 else 0)
    ∧ (initialized s = true → initialized s' = true).
Proof.
  revert s. induction acts as [| a acts IH]; intros s Hs.
  - exists s. cbn. split_and!; try done. by destruct (initialized s).
  - destruct (lifetime_invariant_act a s Hs) as [Hs1 Hmono].
    destruct (IH _ Hs1) as (s' & Hlast & Hinv & Hfalls & Hrises & Hkeep).
    exists s'. cbn [exec].
    destruct (exec_unfold acts (act a s)) as [rest Hrest].
    rewrite Hrest in *. cbn [fmap list_fmap] in *.
    rewrite rises_cons, falls_cons, Hfalls, Hrises.
    split_and!; [by rewrite last_cons, Hlast | done | | |].
    + destruct (initialized s); [by rewrite Hmono | done].
    + destruct (initialized s) eqn:E1, (initialized (act a s)) eqn:E2,
        (initialized s') eqn:E3; cbn; try done.
      * by specialize (Hmono eq_refl).
      * by specialize (Hkeep eq_refl).
    + intros E. apply Hkeep, Hmono, E.
Qed.

Lemma bootstrap_done_initialized s :
  lifetime_invariant s → bootstrap_done s = true → initialized s = true.
Proof.
  intros (boot & others & Htasks & Hboot & _). unfold bootstrap_done.
  rewrite Htasks. cbn. destruct boot; [| done].
  by destruct (initialized s).
Qed.

(** Once a closure that [initializes] has run, the flag is set. *)
Lemma initializes_run {A} (p : prog A) b w :
  initializes p → isInitialized (state (after b p w)) = true.
Proof.
  unfold after. revert w.
  induction p as [a | X e k IH]; intros w Hp; cbn in *; [done |].
  destruct Hp as [[He Hk] | [He Hk]].
  - pose proof (handle_setIsInitialized_true X e b w He) as E.
    destruct (handle b e w) as [x w']. cbn in E.
    pose proof (run_frame (λ w, isInitialized (state w)) not_setIsInitialized
      handle_not_setIsInitialized _ (k x) b w' (Hk x)) as F.
    unfold after in F. by rewrite F.
  - destruct (handle b e w) as [x w']. by apply IH.
Qed.

Lemma all_leaves_run {A} (Q : A → Prop) (p : prog A) b w :
  all_leaves Q p → Q (result b p w).
Proof.
  unfold result. revert w.
  induction p as [a | X e k IH]; intros w Hp; cbn in *; [done |].
  destruct (handle b e w) as [x w']. apply IH, Hp.
Qed.

Lemma all_leaves_pbind {A B} (Q : B → Prop) (p : prog A) (f : A → prog B) :
  all_leaves (λ a, all_leaves Q (f a)) p → all_leaves Q (pbind p f).
Proof.
  induction p as [a | X e k IH]; cbn; [done |].
  intros Hp x. apply IH, Hp.
Qed.

Lemma all_leaves_True {A} (p : prog A) : all_leaves (λ _, True) p.
Proof. induction p; cbn; auto. Qed.

Lemma all_leaves_impl {A} (Q Q' : A → Prop) (p : prog A) :
  (∀ a, Q a → Q' a) → all_leaves Q p → all_leaves Q' p.
Proof. intros HQ. induction p; cbn; auto. Qed.

(** A [try]/[catch] whose handler cannot throw cannot throw. *)
Lemma try_catch_returns {A} (body : js A) handler :
  (∀ t, all_leaves returns_normally (handler t)) →
  all_leaves returns_normally (try_catch body handler).
Proof.
  intros Hh. apply all_leaves_pbind.
  eapply all_leaves_impl; [| apply all_leaves_True].
  intros [a | t] _; [exact I | apply Hh].
Qed.

Lemma try_finally_returns {A} (body : js A) fin :
  all_leaves returns_normally body → all_leaves returns_normally fin →
  all_leaves returns_normally (try_finally body fin).
Proof.
  intros Hb Hf. apply all_leaves_pbind.
  eapply all_leaves_impl; [| exact Hb]. intros c Hc.
  apply all_leaves_pbind. eapply all_leaves_impl; [| exact Hf].
  intros [[] | t] Ht; [exact Hc | destruct Ht].
Qed.

Lemma getInitialSession_returns r :
  all_leaves returns_normally (getInitialSession r).
Proof.
  apply try_finally_returns; [apply try_catch_returns |]; by cbn.
Qed.

Lemma fetchUserProfile_returns r userId :
  all_leaves returns_normally (fetchUserProfile r userId).
Proof. apply try_catch_returns. by cbn. Qed.

Lemma restoreSession_returns r :
  all_leaves returns_normally (restoreSession r).
Proof.
  apply try_finally_returns; [apply try_catch_returns |]; by cbn.
Qed.

Lemma returns_normally_unit (c : completion ()) :
  returns_normally c → c = Normal ().
Proof. by destruct c as [[] |]. Qed.

(** ** The consumer hook *)

(** C10: outside any provider [useAuth] throws, and inside one it returns the
    value of the nearest provider. *)
Theorem useAuth_requires_provider :
  useAuth [] = Throw (ThrownError "useAuth must be used within an AuthProvider")
  ∧ ∀ (r : Store) (outer : list Store), useAuth (r :: outer) = Normal (value r).
Proof. split; [reflexivity | intros r outer; reflexivity]. Qed.

(** ** The listener and the [loading] flag *)

(** A listener created by a render with [loading = true] fails its final
    test [if (!loading)], so it does not clear the flag. *)
Lemma onAuthStateChange_leaves_loading b r event session w :
  loading r = true →
  loading (state (after b (onAuthStateChange r event session) w))
  = loading (state w).
Proof.
  intros Hr.
  apply (run_frame (λ w, loading (state w)) not_setLoading
           handle_not_setLoading).
  by apply onAuthStateChange_not_setLoading.
Qed.

(** C2 (what the code does instead): the listener registered at mount closes
    over [loading = true], so its final test [if (!loading)] never passes:
    whatever the event, its payload and the service's answers, processing an
    event leaves [loading] as it was.  In particular the first event of a
    fresh mount, processed while [loading] is [true], leaves it [true]. *)
Theorem listener_leaves_loading :
  (∀ (b : backend) (event : string) (session : option Session) (w : world),
     loading (state (after b (mount_listener event session) w))
     = loading (state w))
  ∧ loading (state browser) = true
  ∧ loading (state (after backend_session_u1
                      (mount_listener "INITIAL_SESSION" (Some session_u1))
                      browser)) = true.
Proof.
  split_and!.
  - intros b event session w. by apply onAuthStateChange_leaves_loading.
  - reflexivity.
  - unfold mount_listener. by rewrite onAuthStateChange_leaves_loading.
Qed.

(** ** The profile resolver *)

(** C5: when the query answers with a row (and no failure other than the
    no-rows code), resolving stores that row, sends the one select and no
    insert, and returns normally; resolving a second time changes nothing
    more and again sends no insert. *)
Theorem fetchUserProfile_existing_row (b : backend) (r : Store)
    (userId : string) (w : world) (res : QueryResult) (row : UserProfile) :
  answer_select b "user_profiles" "id" userId = Normal res →
  q_data res = Some row →
  other_failure (q_error res) = false →
  let w1 := after b (fetchUserProfile r userId) w in
  let w2 := after b (fetchUserProfile r userId) w1 in
  result b (fetchUserProfile r userId) w = Normal ()
  ∧ state w1 = set_userProfile (Some row) (state w)
  ∧ requests w1 = requests w ++ [SelectSingle "user_profiles" "id" userId]
  ∧ state w2 = state w1
  ∧ requests w2 = requests w1 ++ [SelectSingle "user_profiles" "id" userId].
Proof.
  intros Hsel Hdata Hother.
  unfold fetchUserProfile, result, after. cbn.
  rewrite Hsel. cbn. rewrite Hother, Hdata. cbn. done.
Qed.

Lemma fetchUserProfile_existing_row_witness :
  userProfile (state (after backend_one_row
                        (fetchUserProfile initial_state "u1") browser))
  = Some row_u1.
Proof.
  destruct (fetchUserProfile_existing_row backend_one_row initial_state "u1"
              browser {| q_data := Some row_u1; q_error := None |} row_u1
              eq_refl eq_refl eq_refl) as (_ & E & _).
  rewrite E. reflexivity.
Defined.

(** C9: when the profile query throws, or answers with an error whose code
    is not "PGRST116", resolving logs one error, sends the one select and no
    insert, leaves the whole store (profile, session and identity included)
    and the rest of the world as they were, so an unset profile stays unset,
    and returns normally. *)
Theorem fetchUserProfile_query_failure (b : backend) (r : Store)
    (userId : string) (w : world) :
  (∃ t, answer_select b "user_profiles" "id" userId = Throw t)
  ∨ (∃ res error,
       answer_select b "user_profiles" "id" userId = Normal res
       ∧ q_error res = Some error ∧ code error ≠ "PGRST116") →
  let w' := after b (fetchUserProfile r userId) w in
  result b (fetchUserProfile r userId) w = Normal ()
  ∧ (∃ msg, w' = print (Error msg)
                   (send (SelectSingle "user_profiles" "id" userId) w))
  ∧ state w' = state w
  ∧ (userProfile (state w) = None → userProfile (state w') = None)
  ∧ requests w' = requests w ++ [SelectSingle "user_profiles" "id" userId].
Proof.
  intros Hfail. unfold fetchUserProfile, result, after. cbn.
  destruct Hfail as [[t ->] | (res & error & -> & Herr & Hcode)]; cbn.
  - split_and!; eauto.
  - rewrite Herr. cbn. apply String.eqb_neq in Hcode. rewrite Hcode. cbn.
    split_and!; eauto.
Qed.

Lemma fetchUserProfile_query_failure_witness :
  (userProfile (state (after backend_permission_denied
                         (fetchUserProfile initial_state "u1")
                         resolving_browser)) = None
   ∧ requests (after backend_permission_denied
                 (fetchUserProfile initial_state "u1") resolving_browser)
     = [SelectSingle "user_profiles" "id" "u1"]
   ∧ session (state (after backend_permission_denied
                       (fetchUserProfile initial_state "u1")
                       resolving_browser)) = Some session_u1)
  ∧ state (after backend_down (fetchUserProfile initial_state "u1")
             resolving_browser) = state resolving_browser.
Proof.
  split.
  - destruct (fetchUserProfile_query_failure backend_permission_denied
                initial_state "u1" resolving_browser) as (_ & _ & E & _ & R).
    { right. exists {| q_data := None;
                       q_error := Some {| code := "42501";
                                          pg_message := "permission denied" |} |},
        {| code := "42501"; pg_message := "permission denied" |}.
      by split_and!. }
    rewrite E. split_and!; [reflexivity | exact R | reflexivity].
  - destruct (fetchUserProfile_query_failure backend_down initial_state "u1"
                resolving_browser) as (_ & _ & E & _).
    { left. by eexists. }
    exact E.
Defined.

(** The closures created by the mount effect belong to the first render,
    whose [user] is [null]: the row they insert carries the id only. *)
Lemma new_profile_at_mount userId :
  new_profile initial_state userId
  = {| profile_id := userId; profile_email := "";
       profile_full_name := None; profile_avatar_url := None;
       subscription_status := "free" |}.
Proof. reflexivity. Qed.

(** Resolution of a missing profile, relative to the render [r] whose closure
    runs: when the query answers with no row and the no-rows code, resolving
    sends, after the select, exactly one insert of exactly one row; that row
    has the given id and subscription status "free", and its email, full name
    and avatar are those of the identity the closure knows ([user] of its
    render) where that identity has them, and empty / null otherwise; when the
    insert answers with a row and no error, that row becomes the stored
    profile.  Resolving returns normally whatever the insert answers. *)
Theorem fetchUserProfile_creates_free_profile (b : backend) (r : Store)
    (userId : string) (w : world) (e : PostgrestError) :
  answer_select b "user_profiles" "id" userId
  = Normal {| q_data := None; q_error := Some e |} →
  code e = "PGRST116" →
  let row := new_profile r userId in
  let w' := after b (fetchUserProfile r userId) w in
  result b (fetchUserProfile r userId) w = Normal ()
  ∧ requests w' = requests w ++ [SelectSingle "user_profiles" "id" userId;
                                 InsertSingle "user_profiles" [row]]
  ∧ profile_id row = userId
  ∧ subscription_status row = "free"
  ∧ (∀ u, user r = Some u →
       profile_email row = or_empty (email u)
       ∧ profile_full_name row = or_null (full_name (user_metadata u))
       ∧ profile_avatar_url row = or_null (avatar_url (user_metadata u)))
  ∧ (user r = None →
       profile_email row = "" ∧ profile_full_name row = None
       ∧ profile_avatar_url row = None)
  ∧ (∀ created,
       answer_insert b "user_profiles" [row]
       = Normal {| q_data := Some created; q_error := None |} →
       state w' = set_userProfile (Some created) (state w)).
Proof.
  intros Hsel Hcode row w'. subst row w'.
  split; [apply returns_normally_unit, all_leaves_run, fetchUserProfile_returns |].
  unfold fetchUserProfile, createUserProfile, new_profile, result, after. cbn.
  rewrite Hsel. cbn. rewrite Hcode. cbn.
  split_and!; try done.
  - destruct (answer_insert _ _ _) as [[d [err |]] | t]; cbn;
      by rewrite <- app_assoc.
  - intros u ->. done.
  - intros ->. done.
  - intros created ->. reflexivity.
Qed.

Lemma fetchUserProfile_creates_free_profile_witness :
  userProfile (state (after backend_one_row
     (fetchUserProfile (set_user (Some user_u2) initial_state) "u2") browser))
  = Some {| profile_id := "u2"; profile_email := "u2@example.com";
            profile_full_name := Some "Dos"; profile_avatar_url := None;
            subscription_status := "free" |}.
Proof.
  destruct (fetchUserProfile_creates_free_profile backend_one_row
              (set_user (Some user_u2) initial_state) "u2" browser
              {| code := "PGRST116"; pg_message := "0 rows" |}
              eq_refl eq_refl) as (_ & _ & _ & _ & _ & _ & E).
  rewrite (E _ eq_refl). reflexivity.
Defined.

(** ** Bootstrap failure *)



(** ** Sign-out *)

(** C8: [signOut] first sets [loading] and then sends the sign-out request;
    on every path it ends with [loading = false] and no remembered location;
    it returns normally when the service reports no error, and otherwise
    throws the very error the service reported or threw, after one sign-out
    request and with that cleanup done. *)
Theorem signOut_cleans_up_and_rethrows (b : backend) (w : world) :
  let w' := after b signOut w in
  (∃ k, signOut = Vis (setLoading true) (λ _, Vis auth_signOut k))
  ∧ requests w' = requests w ++ [SignOut]
  ∧ loading (state w') = false
  ∧ result b getStoredLocation w' = Normal None
  ∧ result b signOut w
    = match answer_signOut b with
      | Normal None => Normal ()
      | Normal (Some error) => Throw (ThrownAuthError error)
      | Throw t => Throw t
      end.
Proof.
  split; [by eexists |].
  unfold signOut, getStoredLocation, result, after.
  destruct w as [st [] storage refusal path orig out tm reqs]; cbn;
    destruct (answer_signOut b) as [[err |] | t]; cbn;
    by rewrite ?lookup_delete_eq.
Qed.

Lemma signOut_cleans_up_and_rethrows_witness :
  result backend_signOut_error signOut signed_in_browser
  = Throw (ThrownAuthError {| auth_message := "session missing" |})
  ∧ localStorage (after backend_signOut_error signOut signed_in_browser)
      !! "lastUserLocation" = None.
Proof.
  destruct (signOut_cleans_up_and_rethrows backend_signOut_error
              signed_in_browser) as (_ & _ & _ & _ & E).
  split; [exact E | reflexivity].
Defined.

(** ** Session restoration *)

Lemma fetchUserProfile_run b r userId w :
  run b (fetchUserProfile r userId) w
  = (Normal (), after b (fetchUserProfile r userId) w).
Proof.
  pose proof (all_leaves_run _ _ b w (fetchUserProfile_returns r userId)) as H.
  apply returns_normally_unit in H. unfold result, after in *.
  destruct (run b (fetchUserProfile r userId) w) as [c w']. cbn in *.
  by rewrite H.
Qed.

Lemma fetchUserProfile_profile_only r userId :
  all_effects profile_only (fetchUserProfile r userId).
Proof. unfold fetchUserProfile, createUserProfile. walk. Qed.

Lemma handle_profile_only X (e : eff X) b w :
  profile_only X e →
  session (state (snd (handle b e w))) = session (state w)
  ∧ user (state (snd (handle b e w))) = user (state w).
Proof.
  destruct e; cbn; intros; try done;
    unfold setItem; by destruct (setItem_refusal _ _).
Qed.

(** Resolving a profile touches neither the session nor the identity. *)
Lemma fetchUserProfile_frame b r userId w :
  session (state (after b (fetchUserProfile r userId) w)) = session (state w)
  ∧ user (state (after b (fetchUserProfile r userId) w)) = user (state w).
Proof.
  split.
  - apply (run_frame (λ w, session (state w)) profile_only);
      [intros; by apply handle_profile_only
      | apply fetchUserProfile_profile_only].
  - apply (run_frame (λ w, user (state w)) profile_only);
      [intros; by apply handle_profile_only
      | apply fetchUserProfile_profile_only].
Qed.

(** The profile a resolution ends with depends on the world only through the
    profile it starts with. *)
Lemma fetchUserProfile_profile b r userId w1 w2 :
  userProfile (state w1) = userProfile (state w2) →
  userProfile (state (after b (fetchUserProfile r userId) w1))
  = userProfile (state (after b (fetchUserProfile r userId) w2)).
Proof.
  intros Hp. unfold fetchUserProfile, createUserProfile, after. cbn.
  destruct (answer_select b _ _ _) as [[d err] | t]; cbn; [| done].
  destruct (other_failure err); cbn; [done |].
  destruct d; cbn; [done |].
  destruct (answer_insert b _ _) as [[d [e |]] | t]; by cbn.
Qed.




(** ** Location memory *)

(** C3 (counterexample): in a tab that remembers /dashboard and whose storage
    quota leaves no room for a longer path, storing /portfolio/holdings throws
    and the location read back is still /dashboard, not the path stored. *)
Lemma store_refused_by_quota :
  window small_quota_browser = true
  ∧ pathname small_quota_browser = "/portfolio/holdings"
  ∧ result backend_one_row (store_unless_callback "/portfolio/holdings")
      small_quota_browser
    = Throw (ThrownDOMException "QuotaExceededError"
               "The quota has been exceeded.")
  ∧ result backend_one_row getStoredLocation
      (after backend_one_row (store_unless_callback "/portfolio/holdings")
         small_quota_browser)
    = Normal (Some "/dashboard").
Proof. split_and!; vm_compute; reflexivity. Qed.

(** C3 (amended): the store operation is [storeUserLocation] behind the test
    both callers make.  In a browser, when the path is the OAuth-callback
    path nothing is written and the world is as before; for any other path,
    when the browser accepts the write the store returns normally and the
    location read back is that path; when the browser refuses the write the
    store throws the quota error and the world, the remembered location
    included, is as before. *)
Theorem store_unless_callback_then_get (b : backend) (w : world)
    (path : string) :
  window w = true →
  let w' := after b (store_unless_callback path) w in
  (∀ r, is_Some (user r) → isInitialized r = true →
     trackNavigation r
     = (let* currentPath := await window_location_pathname in
        store_unless_callback currentPath))
  ∧ (path = "/auth/callback" →
     result b (store_unless_callback path) w = Normal () ∧ w' = w)
  ∧ (path ≠ "/auth/callback" →
     setItem_refusal w (<["lastUserLocation" := path]> (localStorage w))
     = None →
     result b (store_unless_callback path) w = Normal ()
     ∧ result b getStoredLocation w' = Normal (Some path))
  ∧ (path ≠ "/auth/callback" → ∀ message,
     setItem_refusal w (<["lastUserLocation" := path]> (localStorage w))
     = Some message →
     result b (store_unless_callback path) w
     = Throw (ThrownDOMException "QuotaExceededError" message)
     ∧ w' = w).
Proof.
  intros Hwin.
  destruct w as [st win storage refusal path' orig out tm reqs].
  cbn in Hwin. subst win. cbv zeta. split_and!.
  - intros r Hu Hi. unfold trackNavigation, store_unless_callback.
    by rewrite Hi, bool_decide_eq_true_2.
  - intros ->. by cbn.
  - intros Hpath Hfits. apply String.eqb_neq in Hpath.
    unfold store_unless_callback, storeUserLocation, getStoredLocation,
      result, after. rewrite Hpath. cbn in *. unfold setItem. cbn.
    rewrite Hfits. cbn. by rewrite lookup_insert_eq.
  - intros Hpath message Hfull. apply String.eqb_neq in Hpath.
    unfold store_unless_callback, storeUserLocation, result, after.
    rewrite Hpath. cbn in *. unfold setItem. cbn. by rewrite Hfull.
Qed.

Lemma store_unless_callback_then_get_witness :
  result backend_one_row getStoredLocation
    (after backend_one_row (store_unless_callback "/settings")
       signed_in_browser)
  = Normal (Some "/settings")
  ∧ after backend_one_row (store_unless_callback "/auth/callback")
      signed_in_browser = signed_in_browser.
Proof.
  destruct (store_unless_callback_then_get backend_one_row signed_in_browser
              "/settings" eq_refl) as (_ & _ & Hput & _).
  destruct (store_unless_callback_then_get backend_one_row signed_in_browser
              "/auth/callback" eq_refl) as (_ & Hskip & _).
  split; [apply Hput; done | apply Hskip; done].
Defined.

(** * Further properties of the controller *)

(** ** Sequencing *)

Lemma run_js_bind {A B} b (m : js A) (f : A → js B) w :
  run b (js_bind m f) w
  = match run b m w with
    | (Normal a, w') => run b (f a) w'
    | (Throw t, w') => (Throw t, w')
    end.
Proof.
  unfold js_bind. rewrite run_pbind.
  by destruct (run b m w) as [[a | t] w'].
Qed.

Lemma after_js_bind_perform {X B} b (e : eff X) (f : X → js B) w :
  after b (js_bind (perform e) f) w
  = after b (f (handle b e w).1) (handle b e w).2.
Proof. unfold after. cbn. by destruct (handle b e w). Qed.

Lemma js_bind_returns {A B} (m : js A) (f : A → js B) :
  all_leaves returns_normally m →
  (∀ a, all_leaves returns_normally (f a)) →
  all_leaves returns_normally (js_bind m f).
Proof.
  intros Hm Hf. apply all_leaves_pbind.
  eapply all_leaves_impl; [| exact Hm]. by intros [a | t] Ha; [apply Hf |].
Qed.

(** ** The profile resolver as a whole *)

Lemma handle_outside_profile X (e : eff X) b w :
  profile_only X e → outside_profile (handle b e w).2 = outside_profile w.
Proof.
  destruct e; cbn; intros; try done;
    unfold setItem; by destruct (setItem_refusal _ _).
Qed.

Lemma resolve_or_clear_profile_only r session :
  all_effects profile_only (resolve_or_clear r session).
Proof.
  destruct session; cbn; [apply fetchUserProfile_profile_only | done].
Qed.

Lemma resolve_or_clear_returns r session :
  all_leaves returns_normally (resolve_or_clear r session).
Proof. destruct session; cbn; [apply fetchUserProfile_returns | done]. Qed.

Lemma resolve_or_clear_run b r session w :
  run b (resolve_or_clear r session) w
  = (Normal (), after b (resolve_or_clear r session) w).
Proof.
  pose proof (all_leaves_run _ _ b w (resolve_or_clear_returns r session)) as H.
  apply returns_normally_unit in H. unfold result, after in *.
  destruct (run b (resolve_or_clear r session) w) as [c w']. cbn in *.
  by rewrite H.
Qed.

Lemma resolve_or_clear_outside b r session w :
  outside_profile (after b (resolve_or_clear r session) w) = outside_profile w.
Proof.
  apply (run_frame outside_profile profile_only);
    [intros; by apply handle_outside_profile
    | apply resolve_or_clear_profile_only].
Qed.

(** X12: resolving a profile returns normally whatever the service answers or
    throws, and changes nothing but the stored profile, the console and the
    request log: identity, session, the two flags, the recorded error, the
    storage, the location and the timers are as before. *)
Theorem fetchUserProfile_only_profile (b : backend) (r : Store)
    (userId : string) (w : world) :
  let w' := after b (fetchUserProfile r userId) w in
  result b (fetchUserProfile r userId) w = Normal ()
  ∧ user (state w') = user (state w)
  ∧ session (state w') = session (state w)
  ∧ loading (state w') = loading (state w)
  ∧ isInitialized (state w') = isInitialized (state w)
  ∧ sessionError (state w') = sessionError (state w)
  ∧ localStorage w' = localStorage w
  ∧ timers w' = timers w.
Proof.
  split; [apply returns_normally_unit, all_leaves_run, fetchUserProfile_returns |].
  pose proof (run_frame outside_profile profile_only
    (λ X e b w H, handle_outside_profile X e b w H) _
    (fetchUserProfile r userId) b w (fetchUserProfile_profile_only r userId))
    as E.
  unfold outside_profile in E. by simplify_eq.
Qed.

(** ** The auth-event handler *)

Lemma onAuthStateChange_parts r event session :
  onAuthStateChange r event session
  = (perform (console_log "Auth state change:") >>
     perform (setSession session) >>
     perform (setUser (session_user <$> session)) >>
     resolve_or_clear r session >>
     settle r event).
Proof. reflexivity. Qed.

(** The world when the payload is mirrored. *)
Lemma onAuthStateChange_after b r event session w :
  after b (onAuthStateChange r event session) w
  = after b (settle r event)
      (after b (resolve_or_clear r session)
         (with_state (set_user (session_user <$> session))
            (with_state (set_session session)
               (print (Log "Auth state change:") w)))).
Proof.
  rewrite onAuthStateChange_parts.
  rewrite !after_js_bind_perform. cbn [handle fst snd].
  unfold after at 1. rewrite run_js_bind, resolve_or_clear_run. reflexivity.
Qed.

(** Walking an effect tree down to its leaves. *)
Ltac walk_leaves :=
  repeat (cbn; intros;
    lazymatch goal with
    | |- True => exact I
    | |- all_leaves _ (pbind _ _) => apply all_leaves_pbind
    | |- all_leaves _ (match ?x with _ => _ end) => destruct x
    | |- all_leaves _ (js_ret _) => unfold js_ret
    | |- all_leaves _ (js_throw _) => unfold js_throw
    | |- all_leaves _ (perform _) => unfold perform
    | |- all_leaves _ (await _) => unfold await
    | |- all_leaves _ (js_bind _ _) => unfold js_bind
    | |- all_leaves _ (try_catch _ _) => unfold try_catch
    | |- all_leaves _ (try_finally _ _) => unfold try_finally
    end).

Lemma settle_returns r event : all_leaves returns_normally (settle r event).
Proof.
  unfold settle, getStoredLocation, clearStoredLocation. walk_leaves.
Qed.

(** What [settle] does to each part of the world it can reach. *)
Lemma settle_after b r event w :
  let w' := after b (settle r event) w in
  state w'
  = (if negb (loading r) then set_loading false (state w) else state w)
  ∧ localStorage w'
    = (if String.eqb event "SIGNED_OUT" && window w
       then delete "lastUserLocation" (localStorage w) else localStorage w)
  ∧ timers w'
    = timers w
      ++ (if String.eqb event "SIGNED_IN" && window w
          then match localStorage w !! "lastUserLocation" with
               | Some href =>
                   if restorable_location href then [(href, 100)] else []
               | None => []
               end
          else [])
  ∧ window w' = window w.
Proof.
  destruct w as [st win storage refusal path orig out tm reqs].
  unfold settle, getStoredLocation, clearStoredLocation, restorable_location,
    after.
  destruct (String.eqb event "SIGNED_IN"), (String.eqb event "SIGNED_OUT"),
    win, (loading r); cbn;
    try destruct (storage !! "lastUserLocation") as [href |]; cbn;
    try destruct (negb (String.eqb href "")
                  && negb (String.eqb href "/auth/callback")
                  && negb (String.eqb href "/")); cbn;
    by rewrite ?app_nil_r.
Qed.

(** The handler's effect on everything but the profile, the console and the
    request log. *)
Lemma onAuthStateChange_effect b r event payload w :
  let w' := after b (onAuthStateChange r event payload) w in
  session (state w') = payload
  ∧ user (state w') = session_user <$> payload
  ∧ loading (state w') = (if loading r then loading (state w) else false)
  ∧ window w' = window w
  ∧ localStorage w'
    = (if String.eqb event "SIGNED_OUT" && window w
       then delete "lastUserLocation" (localStorage w) else localStorage w)
  ∧ timers w'
    = timers w
      ++ (if String.eqb event "SIGNED_IN" && window w
          then match localStorage w !! "lastUserLocation" with
               | Some href =>
                   if restorable_location href then [(href, 100)] else []
               | None => []
               end
          else []).
Proof.
  cbv zeta. rewrite onAuthStateChange_after.
  set (w1 := with_state _ (with_state _ (print _ w))).
  pose proof (resolve_or_clear_outside b r payload w1) as E.
  unfold outside_profile in E.
  destruct (settle_after b r event (after b (resolve_or_clear r payload) w1))
    as (Hst & Hls & Htm & Hwin).
  rewrite Hst, Hls, Htm, Hwin.
  injection E as Eu Es El Ei Ee Ew Els Ep Eo Et.
  rewrite Ew, Els, Et.
  split_and!; try done; destruct (loading r); cbn; by rewrite ?Es, ?Eu, ?El.
Qed.

(** X1: after any sequence of auth events processed in order, the stored
    session and identity are those of the last event's payload, whatever the
    earlier events were and whatever the service answered along the way. *)
Theorem process_events_last_payload (b : backend)
    (events : list (string * option Session)) (event : string)
    (payload : option Session) (w : world) :
  let w' := process_events b (events ++ [(event, payload)]) w in
  session (state w') = payload
  ∧ user (state w') = session_user <$> payload.
Proof.
  cbv zeta. unfold process_events. rewrite fold_left_app. cbn.
  unfold mount_listener.
  by destruct (onAuthStateChange_effect b initial_state event payload
                 (fold_left (λ w ev, after b (onAuthStateChange initial_state
                                                 ev.1 ev.2) w) events w))
    as (Hs & Hu & _).
Qed.

(** X2: an auth event that carries no session leaves the store without
    profile, whatever profile was stored before, and sends no request. *)
Theorem onAuthStateChange_no_session_clears_profile (b : backend) (r : Store)
    (event : string) (w : world) :
  let w' := after b (onAuthStateChange r event None) w in
  userProfile (state w') = None
  ∧ session (state w') = None
  ∧ user (state w') = None
  ∧ requests w' = requests w.
Proof.
  cbv zeta. rewrite onAuthStateChange_after.
  destruct (settle_after b r event
    (after b (resolve_or_clear r None)
       (with_state (set_user (session_user <$> None))
          (with_state (set_session None)
             (print (Log "Auth state change:") w)))))
    as (Hst & _).
  rewrite Hst. clear Hst.
  assert (∀ w0, requests (after b (settle r event) w0) = requests w0) as Hreq.
  { intros w0.
    apply (run_frame requests not_a_request).
    { intros X e b0 w1 He. destruct e; cbn; try done.
      unfold setItem. by destruct (setItem_refusal _ _). }
    unfold settle, getStoredLocation, clearStoredLocation. walk. }
  rewrite Hreq. by destruct (loading r).
Qed.

Lemma getStoredLocation_result b w :
  result b getStoredLocation w
  = Normal (if window w then localStorage w !! "lastUserLocation" else None).
Proof. unfold getStoredLocation, result. cbn. by destruct (window w). Qed.

(** X3: after a "SIGNED_OUT" event no location is remembered, whatever the
    payload and the service's answers; an event of any other kind leaves the
    whole storage as it was. *)
Theorem onAuthStateChange_signed_out_forgets_location (b : backend)
    (r : Store) (event : string) (payload : option Session) (w : world) :
  result b getStoredLocation (after b (onAuthStateChange r "SIGNED_OUT" payload) w)
  = Normal None
  ∧ (event ≠ "SIGNED_OUT" →
     localStorage (after b (onAuthStateChange r event payload) w)
     = localStorage w).
Proof.
  split.
  - rewrite getStoredLocation_result.
    destruct (onAuthStateChange_effect b r "SIGNED_OUT" payload w)
      as (_ & _ & _ & Hwin & Hls & _).
    rewrite Hwin, Hls. destruct (window w); cbn; [| done].
    by rewrite lookup_delete_eq.
  - intros Hev. apply String.eqb_neq in Hev.
    destruct (onAuthStateChange_effect b r event payload w)
      as (_ & _ & _ & _ & Hls & _).
    by rewrite Hls, Hev.
Qed.

(** X4: a "SIGNED_IN" event processed in a browser that remembers a location
    other than the empty path, the OAuth-callback path and the root schedules
    exactly one navigation, to that location, 100 ms later, and keeps the
    location remembered. *)
Theorem onAuthStateChange_signed_in_navigates (b : backend) (r : Store)
    (payload : option Session) (w : world) (href : string) :
  window w = true →
  localStorage w !! "lastUserLocation" = Some href →
  href ≠ "" → href ≠ "/auth/callback" → href ≠ "/" →
  let w' := after b (onAuthStateChange r "SIGNED_IN" payload) w in
  timers w' = timers w ++ [(href, 100)]
  ∧ localStorage w' = localStorage w.
Proof.
  intros Hwin Hls H1 H2 H3.
  apply String.eqb_neq in H1, H2, H3.
  destruct (onAuthStateChange_effect b r "SIGNED_IN" payload w)
    as (_ & _ & _ & _ & Hls' & Htm).
  cbv zeta. rewrite Hls', Htm, Hwin, Hls. unfold restorable_location.
  by rewrite H1, H2, H3.
Qed.

Lemma onAuthStateChange_signed_in_navigates_witness :
  timers (after backend_session_u1
            (mount_listener "SIGNED_IN" (Some session_u1)) signed_in_browser)
  = [("/dashboard", 100)].
Proof.
  destruct (onAuthStateChange_signed_in_navigates backend_session_u1
              initial_state (Some session_u1) signed_in_browser "/dashboard"
              eq_refl eq_refl) as [E _]; [done | done | done |].
  exact E.
Defined.

(** X5: the handler schedules at most one navigation per event, and none at
    all for an event other than "SIGNED_IN", outside a browser, when no
    location is remembered, or when the remembered one is the empty path, the
    OAuth-callback path or the root. *)
Theorem onAuthStateChange_navigates_only_on_sign_in (b : backend) (r : Store)
    (event : string) (payload : option Session) (w : world) :
  let w' := after b (onAuthStateChange r event payload) w in
  (timers w' = timers w ∨ ∃ href, timers w' = timers w ++ [(href, 100)])
  ∧ (event ≠ "SIGNED_IN" → timers w' = timers w)
  ∧ (window w = false → timers w' = timers w)
  ∧ (localStorage w !! "lastUserLocation" = None → timers w' = timers w)
  ∧ (∀ href, localStorage w !! "lastUserLocation" = Some href →
       href = "" ∨ href = "/auth/callback" ∨ href = "/" →
       timers w' = timers w).
Proof.
  destruct (onAuthStateChange_effect b r event payload w)
    as (_ & _ & _ & _ & _ & Htm).
  cbv zeta. rewrite Htm. split_and!.
  - destruct (_ && _); [| left; apply app_nil_r].
    destruct (localStorage w !! "lastUserLocation") as [href |];
      [| left; apply app_nil_r].
    destruct (restorable_location href); [right; by eexists |].
    left; apply app_nil_r.
  - intros Hev. apply String.eqb_neq in Hev. by rewrite Hev, app_nil_r.
  - intros ->. by rewrite andb_false_r, app_nil_r.
  - intros ->. destruct (_ && _); apply app_nil_r.
  - intros href -> Hhref. destruct (_ && _); [| apply app_nil_r].
    by destruct Hhref as [-> | [-> | ->]]; cbn; rewrite app_nil_r.
Qed.

Lemma onAuthStateChange_returns r event payload :
  all_leaves returns_normally (onAuthStateChange r event payload).
Proof.
  rewrite onAuthStateChange_parts.
  repeat (apply js_bind_returns; [by cbn | intros]).
  apply js_bind_returns; [apply resolve_or_clear_returns | intros].
  apply settle_returns.
Qed.

(** X6: the handler returns normally for every event, payload, service
    behaviour and world: no failure of the profile query or insert reaches
    the event stream. *)
Theorem onAuthStateChange_never_throws (b : backend) (r : Store)
    (event : string) (payload : option Session) (w : world) :
  result b (onAuthStateChange r event payload) w = Normal ().
Proof.
  apply returns_normally_unit, all_leaves_run, onAuthStateChange_returns.
Qed.

(** ** Sign-in *)

(** X7: in a browser, [signInWithGoogle] never writes the React state.  When
    the current path is the OAuth-callback path, or the browser accepts the
    write of the path, it remembers the path (unless it is the callback
    path) before it sends its single request, which asks for the provider
    "google" and a return to the callback path of the current origin, and it
    returns normally when the service reports no error and otherwise throws
    the very error reported or thrown.  When the browser refuses the write,
    it throws that quota error and sends no request at all. *)
Theorem signInWithGoogle_outcome (b : backend) (w : world) :
  window w = true →
  let w' := after b signInWithGoogle w in
  let redirectTo := origin w +:+ "/auth/callback" in
  let written := <["lastUserLocation" := pathname w]> (localStorage w) in
  state w' = state w
  ∧ (pathname w = "/auth/callback" ∨ setItem_refusal w written = None →
     requests w' = requests w ++ [SignInWithOAuth "google" redirectTo]
     ∧ localStorage w'
       = (if String.eqb (pathname w) "/auth/callback" then localStorage w
          else written)
     ∧ result b signInWithGoogle w
       = match answer_signInWithOAuth b "google" redirectTo with
         | Normal None => Normal ()
         | Normal (Some error) => Throw (ThrownAuthError error)
         | Throw t => Throw t
         end)
  ∧ (pathname w ≠ "/auth/callback" → ∀ message,
     setItem_refusal w written = Some message →
     requests w' = requests w
     ∧ localStorage w' = localStorage w
     ∧ result b signInWithGoogle w
       = Throw (ThrownDOMException "QuotaExceededError" message)).
Proof.
  intros Hwin. destruct w as [st win storage refusal path orig out tm reqs].
  cbn in Hwin. subst win. cbv zeta.
  unfold signInWithGoogle, storeUserLocation, result, after. cbn.
  destruct (String.eqb path "/auth/callback") eqn:Hpath; cbn.
  - apply String.eqb_eq in Hpath. split_and!.
    + by destruct (answer_signInWithOAuth b _ _) as [[e |] | t].
    + intros _. by destruct (answer_signInWithOAuth b _ _) as [[e |] | t].
    + done.
  - apply String.eqb_neq in Hpath. unfold setItem. cbn.
    destruct (refusal _) as [message |] eqn:Hrefusal; cbn.
    + split_and!; [done | by intros [? | ?] | intros _ m [= <-]; done].
    + split_and!.
      * by destruct (answer_signInWithOAuth b _ _) as [[e |] | t].
      * intros _. by destruct (answer_signInWithOAuth b _ _) as [[e |] | t].
      * by intros _ m.
Qed.

Lemma signInWithGoogle_outcome_witness :
  requests (after backend_down signInWithGoogle browser)
  = [SignInWithOAuth "google" "https://app.example/auth/callback"]
  ∧ localStorage (after backend_down signInWithGoogle browser)
      !! "lastUserLocation" = Some "/dashboard"
  ∧ result backend_down signInWithGoogle browser
    = Throw (ThrownError "Failed to fetch")
  ∧ requests (after backend_one_row signInWithGoogle small_quota_browser) = []
  ∧ result backend_one_row signInWithGoogle small_quota_browser
    = Throw (ThrownDOMException "QuotaExceededError"
               "The quota has been exceeded.").
Proof.
  destruct (signInWithGoogle_outcome backend_down browser eq_refl)
    as (_ & Hok & _).
  destruct (Hok (or_intror eq_refl)) as (Hreq & Hls & Hres).
  destruct (signInWithGoogle_outcome backend_one_row small_quota_browser
              eq_refl) as (_ & _ & Hfull).
  destruct (Hfull ltac:(done) "The quota has been exceeded." eq_refl)
    as (Hreq' & _ & Hres').
  split_and!; [exact Hreq | by rewrite Hls | exact Hres | exact Hreq'
              | exact Hres'].
Defined.

(** X8: the location survives the OAuth round trip.  If [signInWithGoogle]
    is called in a browser on a path other than the empty path, the callback
    path and the root, and the browser accepts the write of that path, then
    in any later browser world whose storage is still as [signInWithGoogle]
    left it (the page has been left and re-entered), the handler of the
    "SIGNED_IN" event, run without interruption, schedules the navigation
    back to that path. *)
Theorem sign_in_round_trip (b b' : backend) (r : Store)
    (payload : option Session) (w w2 : world) :
  window w = true →
  pathname w ≠ "" → pathname w ≠ "/auth/callback" → pathname w ≠ "/" →
  setItem_refusal w (<["lastUserLocation" := pathname w]> (localStorage w))
  = None →
  window w2 = true →
  localStorage w2 = localStorage (after b signInWithGoogle w) →
  timers (after b' (onAuthStateChange r "SIGNED_IN" payload) w2)
  = timers w2 ++ [(pathname w, 100)].
Proof.
  intros Hwin H1 H2 H3 Hfits Hwin2 Hls2.
  assert (localStorage w2 !! "lastUserLocation" = Some (pathname w)) as Hlook.
  { rewrite Hls2. clear Hls2.
    destruct w as [st win storage refusal path orig out tm reqs]. cbn in *.
    subst win. apply String.eqb_neq in H2.
    unfold signInWithGoogle, storeUserLocation, after. cbn. rewrite H2. cbn.
    unfold setItem. cbn. rewrite Hfits. cbn.
    destruct (answer_signInWithOAuth b _ _) as [[e |] | t]; cbn;
      by rewrite lookup_insert_eq. }
  apply String.eqb_neq in H1, H2, H3.
  destruct (onAuthStateChange_effect b' r "SIGNED_IN" payload w2)
    as (_ & _ & _ & _ & _ & Htm).
  rewrite Htm, Hwin2, Hlook. unfold restorable_location.
  by rewrite H1, H2, H3.
Qed.

Lemma sign_in_round_trip_witness :
  timers (after backend_session_u1
            (mount_listener "SIGNED_IN" (Some session_u1))
            (after backend_one_row signInWithGoogle browser))
  = [("/dashboard", 100)].
Proof.
  exact (sign_in_round_trip backend_one_row backend_session_u1 initial_state
           (Some session_u1) browser
           (after backend_one_row signInWithGoogle browser)
           eq_refl ltac:(done) ltac:(done) ltac:(done) eq_refl eq_refl
           eq_refl).
Defined.

(** ** Bootstrap success *)

(** The bootstrap on an answer with a session: mirror it, resolve the
    profile, then clear [loading] and set [isInitialized]. *)
Lemma getInitialSession_with_session b r w s :
  answer_getSession b = Normal {| gs_session := Some s; gs_error := None |} →
  after b (getInitialSession r) w
  = print (Log "Session initialization complete")
      (with_state (set_isInitialized true)
         (with_state (set_loading false)
            (after b (fetchUserProfile r (id (session_user s)))
               (with_state (set_user (Some (session_user s)))
                  (with_state (set_session (Some s))
                     (print (Log "Session retrieved:")
                        (send GetSession
                           (print (Log "Initializing session...")
                              (with_state (set_sessionError None)
                                 (with_state (set_loading true) w)))))))))).
Proof.
  intros Hgs. unfold getInitialSession, after. cbn. rewrite Hgs. cbn.
  rewrite !run_pbind, fetchUserProfile_run. reflexivity.
Qed.

(** Resolving a profile that does not exist yet, when the insert succeeds. *)
Lemma fetchUserProfile_created b r userId w e created :
  answer_select b "user_profiles" "id" userId
  = Normal {| q_data := None; q_error := Some e |} →
  code e = "PGRST116" →
  answer_insert b "user_profiles" [new_profile r userId]
  = Normal {| q_data := Some created; q_error := None |} →
  after b (fetchUserProfile r userId) w
  = with_state (set_userProfile (Some created))
      (send (InsertSingle "user_profiles" [new_profile r userId])
         (send (SelectSingle "user_profiles" "id" userId) w)).
Proof.
  intros Hsel Hcode Hins. unfold fetchUserProfile, createUserProfile, after.
  cbn. rewrite Hsel. cbn. rewrite Hcode. cbn. rewrite Hins. reflexivity.
Qed.

(** X9: when the bootstrap finds a session whose user has no profile row and
    the insert succeeds, the freshly mounted store ends with that session and
    identity, the created profile, no error, [loading = false] and
    [isInitialized = true].  Three requests are sent, in this order: the
    session fetch, the profile query and the insert; the inserted row holds
    the user's id and status "free" but an empty email and no name or avatar,
    whatever the identity's metadata, since the closure created at mount
    still sees no user. *)
Theorem getInitialSession_creates_profile (b : backend) (w : world)
    (s : Session) (e : PostgrestError) (created : UserProfile) :
  let uid := id (session_user s) in
  let row := {| profile_id := uid; profile_email := "";
                profile_full_name := None; profile_avatar_url := None;
                subscription_status := "free" |} in
  answer_getSession b = Normal {| gs_session := Some s; gs_error := None |} →
  answer_select b "user_profiles" "id" uid
  = Normal {| q_data := None; q_error := Some e |} →
  code e = "PGRST116" →
  answer_insert b "user_profiles" [row]
  = Normal {| q_data := Some created; q_error := None |} →
  let w' := after b mount_getInitialSession (sys_world (mount w)) in
  state w' = {| user := Some (session_user s); userProfile := Some created;
                session := Some s; loading := false; isInitialized := true;
                sessionError := None |}
  ∧ requests w' = requests w ++ [GetSession;
                                 SelectSingle "user_profiles" "id" uid;
                                 InsertSingle "user_profiles" [row]].
Proof.
  intros uid row Hgs Hsel Hcode Hins w'. subst w'.
  unfold mount_getInitialSession.
  rewrite (getInitialSession_with_session _ _ _ _ Hgs).
  rewrite (fetchUserProfile_created b initial_state uid _ e created
             Hsel Hcode Hins).
  split; [reflexivity |]. cbn. by rewrite <- !app_assoc.
Qed.

Lemma getInitialSession_creates_profile_witness :
  userProfile (state (after backend_new_user mount_getInitialSession
                        (sys_world (mount browser))))
  = Some {| profile_id := "u2"; profile_email := "";
            profile_full_name := None; profile_avatar_url := None;
            subscription_status := "free" |}.
Proof.
  destruct (getInitialSession_creates_profile backend_new_user browser
              {| access_token := "token-2"; session_user := user_u2 |}
              {| code := "PGRST116"; pg_message := "0 rows" |}
              {| profile_id := "u2"; profile_email := "";
                 profile_full_name := None; profile_avatar_url := None;
                 subscription_status := "free" |}
              eq_refl eq_refl eq_refl eq_refl) as [E _].
  by rewrite E.
Defined.

(** X10: when the bootstrap finds no session (and no error), it sends the
    session fetch and nothing else, and the freshly mounted store ends signed
    out, without error, with [loading = false] and [isInitialized = true]. *)
Theorem getInitialSession_no_session (b : backend) (w : world) :
  answer_getSession b = Normal {| gs_session := None; gs_error := None |} →
  let w' := after b mount_getInitialSession (sys_world (mount w)) in
  state w' = {| user := None; userProfile := None; session := None;
                loading := false; isInitialized := true;
                sessionError := None |}
  ∧ requests w' = requests w ++ [GetSession].
Proof.
  intros Hgs.
  unfold mount_getInitialSession, getInitialSession, after. cbn.
  rewrite Hgs. by cbn.
Qed.

Lemma getInitialSession_no_session_witness :
  requests (after backend_one_row mount_getInitialSession
              (sys_world (mount browser))) = [GetSession].
Proof.
  exact (proj2 (getInitialSession_no_session backend_one_row browser eq_refl)).
Defined.

(** ** Profile creation failure *)

(** X11: when the insert of a new profile rejects or answers with an error,
    [createUserProfile] logs one error and returns normally; the store,
    the stored profile included, is as before, and exactly one insert was
    sent (no retry). *)
Theorem createUserProfile_insert_failure (b : backend) (r : Store)
    (userId : string) (w : world) :
  insert_failed (answer_insert b "user_profiles" [new_profile r userId])
  = true →
  let w' := after b (createUserProfile r userId) w in
  result b (createUserProfile r userId) w = Normal ()
  ∧ (∃ msg, w' = print (Error msg)
                   (send (InsertSingle "user_profiles"
                            [new_profile r userId]) w))
  ∧ state w' = state w.
Proof.
  intros Hfail. unfold createUserProfile, result, after. cbn.
  destruct (answer_insert b _ _) as [[d [err |]] | t]; cbn in *;
    try done; split_and!; eauto.
Qed.

Lemma createUserProfile_insert_failure_witness :
  state (after backend_down (createUserProfile initial_state "u1")
           signed_in_browser) = state signed_in_browser.
Proof.
  by destruct (createUserProfile_insert_failure backend_down initial_state
                 "u1" signed_in_browser eq_refl) as (_ & _ & E).
Defined.

(** ** Location memory as a single slot *)

(** X13: after [clearStoredLocation] no location is remembered, whatever was
    stored before, so a stored path does not survive a clear; and reading the
    location changes nothing. *)
Theorem clearStoredLocation_then_get (b : backend) (w : world) (path : string) :
  result b getStoredLocation (after b clearStoredLocation w) = Normal None
  ∧ result b getStoredLocation
      (after b clearStoredLocation (after b (storeUserLocation path) w))
    = Normal None
  ∧ after b getStoredLocation w = w.
Proof.
  destruct w as [st [] storage refusal p orig out tm reqs];
    unfold getStoredLocation, clearStoredLocation, storeUserLocation,
      result, after; cbn; unfold setItem; cbn;
    try destruct (refusal _); cbn; by rewrite ?lookup_delete_eq.
Qed.

(** X14: the location memory is one slot of the storage.  In a browser, of
    two paths stored one after the other the second is the one remembered
    whenever the browser accepts that second write (whether or not it
    accepted the first); and storing or clearing the location leaves every
    other key of the storage as it was, whether the write is accepted or
    refused. *)
Theorem storeUserLocation_single_slot (b : backend) (w : world)
    (p q : string) :
  window w = true →
  let w1 := after b (storeUserLocation p) w in
  (setItem_refusal w (<["lastUserLocation" := q]> (localStorage w1)) = None →
   result b getStoredLocation (after b (storeUserLocation q) w1)
   = Normal (Some q))
  ∧ (∀ key, key ≠ "lastUserLocation" →
       localStorage w1 !! key = localStorage w !! key
       ∧ localStorage (after b clearStoredLocation w) !! key
         = localStorage w !! key).
Proof.
  intros Hwin. destruct w as [st win storage refusal path orig out tm reqs].
  cbn in Hwin. subst win. cbv zeta.
  unfold getStoredLocation, clearStoredLocation, storeUserLocation,
    result, after; cbn. unfold setItem; cbn. split.
  - destruct (refusal (<["lastUserLocation" := p]> storage)); cbn;
      intros Hq; unfold setItem; cbn; rewrite Hq; cbn;
      by rewrite lookup_insert_eq.
  - intros key Hkey.
    destruct (refusal _); cbn;
      by rewrite ?lookup_insert_ne, ?lookup_delete_ne.
Qed.

Lemma storeUserLocation_single_slot_witness :
  result backend_one_row getStoredLocation
    (after backend_one_row (storeUserLocation "/settings")
       (after backend_one_row (storeUserLocation "/portfolio") browser))
  = Normal (Some "/settings").
Proof.
  exact (proj1 (storeUserLocation_single_slot backend_one_row browser
                  "/portfolio" "/settings" eq_refl) eq_refl).
Defined.

(** X15: where there is no window, storing and clearing the location do
    nothing at all and reading it gives null. *)
Theorem location_memory_without_window (b : backend) (w : world)
    (path : string) :
  window w = false →
  after b (storeUserLocation path) w = w
  ∧ after b clearStoredLocation w = w
  ∧ result b getStoredLocation w = Normal None
  ∧ result b (storeUserLocation path) w = Normal ()
  ∧ result b clearStoredLocation w = Normal ().
Proof.
  intros Hwin. destruct w as [st win storage refusal p orig out tm reqs].
  cbn in Hwin. subst win. by split_and!.
Qed.

Lemma location_memory_without_window_witness :
  result backend_one_row getStoredLocation
    (after backend_one_row (storeUserLocation "/settings") headless)
  = Normal None.
Proof.
  destruct (location_memory_without_window backend_one_row headless
              "/settings" eq_refl) as (E & _ & G & _).
  by rewrite E, G.
Defined.

(** ** The navigation tracker *)

(** X16: the navigation tracker does nothing at all, and does not even read
    the location, for a render without identity or before initialization.
    For a render with both, in a browser, it leaves the world untouched on
    the OAuth-callback path; on any other path it remembers the current path
    and changes nothing else when the browser accepts the write, and throws
    the quota error, changing nothing, when the browser refuses it. *)
Theorem trackNavigation_effect (b : backend) (r : Store) (w : world) :
  let written := <["lastUserLocation" := pathname w]> (localStorage w) in
  (user r = None ∨ isInitialized r = false →
   run b (trackNavigation r) w = (Normal (), w))
  ∧ (is_Some (user r) → isInitialized r = true → window w = true →
     run b (trackNavigation r) w
     = if String.eqb (pathname w) "/auth/callback" then (Normal (), w)
       else match setItem_refusal w written with
            | None => (Normal (), with_localStorage (λ _, written) w)
            | Some message =>
                (Throw (ThrownDOMException "QuotaExceededError" message), w)
            end).
Proof.
  unfold trackNavigation. split.
  - intros [Hu | Hi]; [rewrite Hu | rewrite Hi, andb_false_r]; done.
  - intros Hu Hi Hwin. rewrite Hi, bool_decide_eq_true_2 by done.
    destruct w as [st win storage refusal p orig out tm reqs]. cbn in Hwin.
    subst win. unfold storeUserLocation. cbn.
    destruct (String.eqb p "/auth/callback"); cbn; [done |].
    unfold setItem. cbn. by destruct (refusal _).
Qed.

(** ** Sign-out and the store *)

(** X17: [signOut] itself never clears the session, the identity or the
    profile: whatever the service answers, the store it leaves differs from
    the one it found only by [loading = false].  The store is signed out by
    the "SIGNED_OUT" event: once the listener has processed that event with
    an empty payload, session, identity and profile are null and no location
    is remembered. *)
Theorem signOut_leaves_session_to_listener (b b' : backend) (w : world) :
  state (after b signOut w) = set_loading false (state w)
  ∧ let w' := after b' (mount_listener "SIGNED_OUT" None) (after b signOut w) in
    state w' = {| user := None; userProfile := None; session := None;
                  loading := false;
                  isInitialized := isInitialized (state w);
                  sessionError := sessionError (state w) |}
    ∧ result b' getStoredLocation w' = Normal None.
Proof.
  destruct w as [st [] storage refusal p orig out tm reqs];
    unfold signOut, mount_listener, onAuthStateChange, getStoredLocation,
      clearStoredLocation, result, after; cbn;
    destruct (answer_signOut b) as [[err |] | t]; cbn;
    by rewrite ?lookup_delete_eq.
Qed.

(** ** Overlapping resolutions *)

(** X18: profile writes are not fenced by identity.  When an event for [s1]
    is followed by an event for [s2] while the profile query of the first is
    still pending, and the first query is answered last, the store ends with
    the session and identity of [s2] and the profile that was answered for
    [s1]. *)
Theorem stale_profile_overwrites (w : world) (s1 s2 : Session)
    (row1 row2 : UserProfile) :
  ∃ final,
    last (exec (race_schedule s1 s2 (backend_with_row row1)
                  (backend_with_row row2)) (mount w)) = Some final
    ∧ session (state (sys_world final)) = Some s2
    ∧ user (state (sys_world final)) = Some (session_user s2)
    ∧ userProfile (state (sys_world final)) = Some row1.
Proof. eexists. split; [vm_compute; reflexivity | by split_and!]. Qed.

(** ** The connection status indicator *)


(** ** The [loading] flag at rest *)

Lemma clears_loading_pbind_r {A B} (p : prog A) (f : A → prog B) :
  (∀ a, clears_loading (f a)) → clears_loading (pbind p f).
Proof.
  intros Hf. induction p as [a | X e k IH]; cbn; [apply Hf |].
  right. exact IH.
Qed.

Lemma loading_bracketed_pbind_r {A B} (p : prog A) (f : A → prog B) :
  (∀ a, clears_loading (f a)) → (∀ a, loading_bracketed (f a)) →
  loading_bracketed (pbind p f).
Proof.
  intros Hc Hb. induction p as [a | X e k IH]; cbn; [apply Hb |].
  split; [exact IH |]. intros _ x. by apply clears_loading_pbind_r.
Qed.

Lemma not_setLoading_bracketed {A} (p : prog A) :
  all_effects not_setLoading p → loading_bracketed p.
Proof.
  induction p as [a | X e k IH]; cbn; [done |].
  intros [He Hk]. split; [intros x; apply IH, Hk |].
  by destruct e.
Qed.

(** A [finally] block that starts with [setLoading(false)] and does not set
    the flag again brackets whatever the [try] block does. *)
Lemma try_finally_bracketed {A} (body : js A) (rest : js unit) :
  all_effects not_setLoading rest →
  loading_bracketed
    (try_finally body (js_bind (perform (setLoading false)) (λ _, rest))).
Proof.
  intros Hrest. unfold try_finally.
  apply loading_bracketed_pbind_r; intros c; cbn; [by left |].
  split; [| done]. intros _. apply not_setLoading_bracketed.
  apply all_effects_pbind; [done | by intros [[] |]].
Qed.

Lemma try_finally_clears {A} (body : js A) (rest : js unit) :
  clears_loading
    (try_finally body (js_bind (perform (setLoading false)) (λ _, rest))).
Proof.
  unfold try_finally. apply clears_loading_pbind_r. intros c. cbn. by left.
Qed.

Lemma start_loading_bracketed o : loading_bracketed (start o).
Proof.
  destruct o as [event payload | | r | | r]; cbn [start].
  - by apply not_setLoading_bracketed, onAuthStateChange_not_setLoading.
  - apply try_finally_bracketed. unfold clearStoredLocation. walk.
  - apply (try_finally_bracketed _ (js_ret ())). by cbn.
  - apply not_setLoading_bracketed. unfold signInWithGoogle. walk.
  - apply not_setLoading_bracketed. unfold trackNavigation. walk.
Qed.

Lemma loading_invariant_mount w : loading_invariant (mount w).
Proof.
  unfold loading_invariant.
  change (tasks (mount w)) with [getInitialSession initial_state].
  unfold getInitialSession. split.
  - constructor; [| constructor].
    apply try_finally_bracketed. by cbn.
  - intros _. apply Exists_cons_hd. apply try_finally_clears.
Qed.

Lemma handle_loading X (e : eff X) b w :
  loading (state (handle b e w).2) = true →
  is_setLoading true X e
  ∨ (¬ is_setLoading false X e ∧ loading (state w) = true).
Proof.
  destruct e as [| | | l | | | | | | | | | | | | | | | |]; cbn; intros E;
    try (right; split; [exact (λ H, H) | exact E]).
  - destruct l; [left; reflexivity | discriminate E].
  - right. split; [exact (λ H, H) |].
    unfold setItem in E. by destruct (setItem_refusal _ _).
Qed.

Lemma loading_invariant_act a s :
  loading_invariant s → loading_invariant (act a s).
Proof.
  intros [Hall Hsome]. destruct a as [i b | o | path]; cbn [act].
  - destruct (tasks s !! i) as [[c | X e k] |] eqn:Hi; try by split.
    destruct (handle b e (sys_world s)) as [x w'] eqn:Hh.
    pose proof (Forall_lookup_1 _ _ _ _ Hall Hi) as [Hk Htrue].
    split; cbn.
    + apply Forall_insert; [done | apply Hk].
    + intros Hl. replace w' with (handle b e (sys_world s)).2 in Hl
        by by rewrite Hh.
      apply Exists_exists.
      destruct (handle_loading _ _ _ _ Hl) as [He | [He Hl0]].
      * exists (k x). split; [| by apply Htrue].
        apply list_elem_of_lookup. exists i.
        apply list_lookup_insert_eq. by eapply lookup_lt_Some.
      * apply Hsome, Exists_exists in Hl0 as (p & Hp & Hclears).
        apply list_elem_of_lookup in Hp as [j Hj].
        destruct (decide (i = j)) as [Heq | Hne].
        -- subst j. pose proof (eq_trans (eq_sym Hj) Hi) as Hp.
           injection Hp as ->.
           destruct Hclears as [Hfalse | Hrest]; [done |].
           exists (k x). split; [| apply Hrest].
           apply list_elem_of_lookup. exists i.
           apply list_lookup_insert_eq. by eapply lookup_lt_Some.
        -- exists p. split; [| done].
           apply list_elem_of_lookup. exists j.
           by rewrite list_lookup_insert_ne.
  - split; cbn.
    + apply Forall_app. split; [done |].
      constructor; [apply start_loading_bracketed | constructor].
    + intros Hl. apply Exists_app. left. by apply Hsome.
  - split; [done |]. cbn. exact Hsome.
Qed.

Lemma exec_loading_invariant acts s final :
  loading_invariant s → last (exec acts s) = Some final →
  loading_invariant final.
Proof.
  revert s. induction acts as [| a acts IH]; intros s Hs; cbn [exec].
  - cbn. by intros [= <-].
  - destruct (exec_unfold acts (act a s)) as [rest Hrest].
    intros Hlast. apply (IH (act a s)); [by apply loading_invariant_act |].
    rewrite Hrest in Hlast |- *. by rewrite last_cons_cons in Hlast.
Qed.

(** X20: no spinner at rest.  Over one controller lifetime, under every
    schedule of auth events, calls of the actions, navigation and
    resumptions, whenever every started function has returned or thrown,
    [loading] is [false]. *)
Theorem loading_false_when_quiescent (w : world) (acts : list action)
    (final : system) :
  last (exec acts (mount w)) = Some final →
  quiescent final = true →
  loading (state (sys_world final)) = false.
Proof.
  intros Hlast Hq.
  destruct (exec_loading_invariant acts _ final (loading_invariant_mount w)
              Hlast) as [_ Hsome].
  destruct (decide (loading (state (sys_world final)) = true)) as [Hl | Hl];
    [| by destruct (loading (state (sys_world final)))].
  apply Hsome, Exists_exists in Hl as (p & Hp & Hclears).
  unfold quiescent in Hq. rewrite forallb_forall in Hq.
  apply list_elem_of_In, Hq in Hp. by destruct p.
Qed.

Lemma loading_false_when_quiescent_witness :
  loading (state (sys_world
     (default (mount browser)
        (last (exec quiescent_schedule (mount browser)))))) = false.
Proof.
  eapply (loading_false_when_quiescent browser quiescent_schedule);
    [vm_compute; reflexivity | reflexivity].
Defined.

(** ** Lookup before insert *)

(** X21: a resolution sends the profile query first and then at most one
    insert; it sends the insert exactly when the query answered with no row
    and either no error or an error whose code is "PGRST116", and the
    inserted row is the one built for that user id. *)
Theorem fetchUserProfile_requests (b : backend) (r : Store)
    (userId : string) (w : world) :
  requests (after b (fetchUserProfile r userId) w)
  = requests w
    ++ SelectSingle "user_profiles" "id" userId
       :: match answer_select b "user_profiles" "id" userId with
          | Normal {| q_data := None; q_error := None |} =>
              [InsertSingle "user_profiles" [new_profile r userId]]
          | Normal {| q_data := None; q_error := Some error |} =>
              if bool_decide (code error = "PGRST116")
              then [InsertSingle "user_profiles" [new_profile r userId]]
              else []
          | _ => []
          end.
Proof.
  unfold fetchUserProfile, createUserProfile, after. cbn.
  destruct (answer_select b _ _ _) as [[d err] | t]; cbn; [| done].
  destruct err as [error |]; cbn.
  - destruct (String.eqb_spec (code error) "PGRST116") as [Hc | Hc]; cbn.
    + rewrite bool_decide_eq_true_2 by done. destruct d; cbn; [done |].
      destruct (answer_insert b _ _) as [[d [e |]] | t]; cbn;
        by rewrite <- app_assoc.
    + rewrite bool_decide_eq_false_2 by done. by destruct d.
  - destruct d; cbn; [done |].
    destruct (answer_insert b _ _) as [[d [e |]] | t]; cbn;
      by rewrite <- app_assoc.
Qed.

(** ** The identity seen by the closures created at mount *)

Lemma settle_requests b r event w :
  requests (after b (settle r event) w) = requests w.
Proof.
  apply (run_frame requests not_a_request).
  { intros X e b0 w1 He. destruct e; cbn; try done.
    unfold setItem. by destruct (setItem_refusal _ _). }
  unfold settle, getStoredLocation, clearStoredLocation. walk.
Qed.

(** C4 (what the code does instead): on the two flows that resolve a profile
    when a user signs in, the auth-event handler and the bootstrap sequence,
    the closures are those of the first render, whose [user] is [null].  When
    the query answers with no row, each sends exactly one insert of one row
    with the user's id and status "free", but with an empty email and no name
    or avatar, although the identity of the session has just been stored:
    its metadata is not copied. *)
Theorem mount_closures_insert_without_identity (b : backend) (event : string)
    (s : Session) (w : world) (e : PostgrestError) :
  let uid := id (session_user s) in
  let row := {| profile_id := uid; profile_email := "";
                profile_full_name := None; profile_avatar_url := None;
                subscription_status := "free" |} in
  answer_select b "user_profiles" "id" uid
  = Normal {| q_data := None; q_error := Some e |} →
  code e = "PGRST116" →
  (let w' := after b (mount_listener event (Some s)) w in
   user (state w') = Some (session_user s)
   ∧ requests w' = requests w ++ [SelectSingle "user_profiles" "id" uid;
                                  InsertSingle "user_profiles" [row]])
  ∧ (answer_getSession b
     = Normal {| gs_session := Some s; gs_error := None |} →
     let w' := after b mount_getInitialSession w in
     user (state w') = Some (session_user s)
     ∧ requests w' = requests w ++ [GetSession;
                                    SelectSingle "user_profiles" "id" uid;
                                    InsertSingle "user_profiles" [row]]).
Proof.
  intros uid row Hsel Hcode. split.
  - cbv zeta. unfold mount_listener.
    destruct (onAuthStateChange_effect b initial_state event (Some s) w)
      as (_ & Hu & _).
    split; [exact Hu |].
    rewrite onAuthStateChange_after, settle_requests.
    change (resolve_or_clear initial_state (Some s))
      with (fetchUserProfile initial_state uid).
    destruct (fetchUserProfile_creates_free_profile b initial_state uid
      (with_state (set_user (session_user <$> Some s))
         (with_state (set_session (Some s))
            (print (Log "Auth state change:") w))) e Hsel Hcode)
      as (_ & Hreq & _).
    exact Hreq.
  - intros Hgs. cbv zeta. unfold mount_getInitialSession.
    rewrite (getInitialSession_with_session _ _ _ _ Hgs).
    set (W := with_state (set_user _) _).
    destruct (fetchUserProfile_frame b initial_state uid W) as [_ Hu].
    destruct (fetchUserProfile_creates_free_profile b initial_state uid W
                e Hsel Hcode) as (_ & Hreq & _).
    split.
    + change (user (state (after b (fetchUserProfile initial_state uid) W))
              = Some (session_user s)).
      by rewrite Hu.
    + change (requests (after b (fetchUserProfile initial_state uid) W)
              = requests w ++ [GetSession;
                               SelectSingle "user_profiles" "id" uid;
                               InsertSingle "user_profiles" [row]]).
      rewrite Hreq. subst W. cbn. by rewrite <- app_assoc.
Qed.

Lemma mount_closures_insert_without_identity_witness :
  email user_u2 = Some "u2@example.com"
  ∧ full_name (user_metadata user_u2) = Some "Dos"
  ∧ user (state (after backend_new_user mount_getInitialSession browser))
    = Some user_u2
  ∧ requests (after backend_new_user mount_getInitialSession browser)
    = [GetSession; SelectSingle "user_profiles" "id" "u2";
       InsertSingle "user_profiles"
         [{| profile_id := "u2"; profile_email := "";
             profile_full_name := None; profile_avatar_url := None;
             subscription_status := "free" |}]].
Proof.
  destruct (mount_closures_insert_without_identity backend_new_user
              "SIGNED_IN"
              {| access_token := "token-2"; session_user := user_u2 |}
              browser {| code := "PGRST116"; pg_message := "0 rows" |}
              eq_refl eq_refl) as [_ Hboot].
  destruct (Hboot eq_refl) as [Hu Hreq].
  split_and!; [reflexivity | reflexivity | exact Hu | exact Hreq].
Defined.

(** ** The bootstrap sequence and the [isInitialized] flag *)

Lemma initializes_after_fetch_mono {A} (f f' : bool) (p : prog A) :
  (f = true → f' = true) →
  initializes_after_fetch f p → initializes_after_fetch f' p.
Proof.
  revert f f'. induction p as [a | X e k IH]; intros f f' Hf; cbn; [done |].
  intros [(He & Hfetched & Hk) | [He Hk]].
  - left. split_and!; [done | by apply Hf | done].
  - right. split; [done |]. intros x. eapply IH; [| apply Hk].
    destruct f; cbn; [by rewrite Hf | by intros ->; rewrite orb_true_r].
Qed.

Lemma initializes_after_fetch_pbind {A B} f (p : prog A) (g : A → prog B) :
  all_effects not_setIsInitialized p →
  (∀ a, initializes_after_fetch f (g a)) →
  initializes_after_fetch f (pbind p g).
Proof.
  revert f. induction p as [a | X e k IH]; intros f Hp Hg; cbn in *;
    [apply Hg |].
  destruct Hp as [He Hk]. right. split; [done |]. intros x.
  apply IH; [apply Hk |]. intros a.
  eapply initializes_after_fetch_mono; [| apply Hg].
  by intros ->.
Qed.

(** [getInitialSession] sets the flag after its fetch, as the last thing it
    does but for the closing log. *)
Lemma getInitialSession_order r :
  initializes_after_fetch false (getInitialSession r).
Proof.
  unfold getInitialSession, try_finally, try_catch. cbn.
  right. split; [done |]. intros _. right. split; [done |]. intros _.
  right. split; [done |]. intros _. right. split; [done |]. intros res. cbn.
  apply initializes_after_fetch_pbind.
  - pose proof fetchUserProfile_not_setIsInitialized. walk; auto; walk.
  - intros c. cbn. right. split; [done |]. intros _.
    left. split_and!; [done | done |]. intros _. by cbn.
Qed.

Lemma handle_requests X (e : eff X) b w :
  ∃ extra, requests (handle b e w).2 = requests w ++ extra
           ∧ (is_getSession e = true → GetSession ∈ extra).
Proof.
  destruct e; cbn;
    try (exists []; by rewrite app_nil_r);
    try (eexists [_]; split; [reflexivity | intros; set_solver]).
  unfold setItem. destruct (setItem_refusal _ _);
    exists []; by rewrite app_nil_r.
Qed.

Lemma handle_is_console_log X (e : eff X) b w :
  is_console_log X e →
  requests (handle b e w).2 = requests w
  ∧ isInitialized (state (handle b e w).2) = isInitialized (state w).
Proof. by destruct e. Qed.

Lemma bootstrap_order_mount w : bootstrap_order w (mount w).
Proof.
  exists mount_getInitialSession, [], []. split_and!; try done.
  - by rewrite app_nil_r.
  - exists false. split; [apply getInitialSession_order | done].
Qed.

Lemma bootstrap_order_act w0 a s :
  bootstrap_order w0 s → bootstrap_order w0 (act a s).
Proof.
  intros (boot & others & sent & Htasks & Hreq & Hothers & Hboot).
  destruct a as [i b | o | path]; cbn [act].
  - destruct (tasks s !! i) as [[c | X e k] |] eqn:Hi;
      try by exists boot, others, sent.
    destruct (handle b e (sys_world s)) as [x w'] eqn:Hh.
    assert (Hw' : w' = (handle b e (sys_world s)).2) by by rewrite Hh.
    destruct (handle_requests X e b (sys_world s)) as (extra & Hext & Hget).
    rewrite <- Hw', Hreq, <- app_assoc in Hext.
    rewrite Htasks in Hi |- *. destruct i as [| i]; cbn in Hi.
    + injection Hi as ->.
      exists (k x), others, (sent ++ extra). unfold initialized in *. cbn.
      split_and!; [done | done | done |].
      destruct (isInitialized (state (sys_world s))) eqn:Hinit.
      * destruct Hboot as [Hsent [He Hk]].
        destruct (handle_is_console_log X e b (sys_world s) He) as [_ E].
        rewrite <- Hw', Hinit in E. rewrite E.
        split; [set_solver | apply Hk].
      * destruct Hboot as (fetched & [(He & Hf & Hk) | [He Hk]] & Hsent).
        -- pose proof (handle_setIsInitialized_true X e b (sys_world s) He)
             as E.
           rewrite <- Hw' in E. rewrite E.
           split; [set_solver | apply Hk].
        -- pose proof (handle_not_setIsInitialized X e b (sys_world s) He)
             as E.
           rewrite <- Hw', Hinit in E. rewrite E.
           exists (fetched || is_getSession e). split; [apply Hk |].
           intros [-> | Hg]%orb_true_iff; set_solver.
    + pose proof (Forall_lookup_1 _ _ _ _ Hothers Hi) as [He Hk].
      pose proof (handle_not_setIsInitialized X e b (sys_world s) He) as E.
      rewrite <- Hw' in E.
      exists boot, (<[i := k x]> others), (sent ++ extra).
      unfold initialized in *. cbn. rewrite E.
      split_and!; [done | done | apply Forall_insert; [done | apply Hk] |].
      destruct (isInitialized (state (sys_world s))).
      * destruct Hboot as [Hsent Hlogs]. split; [set_solver | done].
      * destruct Hboot as (fetched & Hf & Hsent).
        exists fetched. split; [done | set_solver].
  - exists boot, (others ++ [start o]), sent. rewrite Htasks.
    split_and!; [done | done | | done].
    apply Forall_app. split; [done |].
    constructor; [apply start_not_setIsInitialized | constructor].
  - by exists boot, others, sent.
Qed.

Lemma exec_bootstrap_order w0 acts s :
  bootstrap_order w0 s → Forall (bootstrap_order w0) (exec acts s).
Proof.
  revert s. induction acts as [| a acts IH]; intros s Hs; cbn [exec].
  - by constructor.
  - constructor; [done |]. by apply IH, bootstrap_order_act.
Qed.

Lemma after_try_finally {A} b (body : js A) fin w :
  after b (try_finally body fin) w = after b fin (after b body w).
Proof.
  unfold after, try_finally. rewrite run_pbind.
  destruct (run b body w) as [c w1]. rewrite run_pbind. cbn.
  by destruct (run b fin w1) as [[[] | t] w2].
Qed.

Lemma getInitialSession_clears_loading b r w :
  loading (state (after b (getInitialSession r) w)) = false.
Proof. unfold getInitialSession. by rewrite after_try_finally. Qed.

(** Run on its own, the bootstrap sequence mirrors an answer without error
    into the store before it ends. *)
Lemma getInitialSession_mirrors b r w res :
  answer_getSession b = Normal res → gs_error res = None →
  session (state (after b (getInitialSession r) w)) = gs_session res
  ∧ user (state (after b (getInitialSession r) w))
    = session_user <$> gs_session res.
Proof.
  intros Hgs Herr. destruct res as [[s |] err]; cbn in Herr; subst err;
    cbn [gs_session fmap option_fmap option_map].
  - rewrite (getInitialSession_with_session _ _ _ _ Hgs).
    set (W := with_state (set_user _) _).
    destruct (fetchUserProfile_frame b r (id (session_user s)) W) as [Hs Hu].
    split.
    + change (session (state (after b (fetchUserProfile r
                                         (id (session_user s))) W)) = Some s).
      by rewrite Hs.
    + change (user (state (after b (fetchUserProfile r
                                      (id (session_user s))) W))
              = Some (session_user s)).
      by rewrite Hu.
  - unfold getInitialSession, after. cbn. rewrite Hgs. by cbn.
Qed.

(** C1: over one controller lifetime (one mount), under every schedule of
    auth events, calls to [signOut], [restoreSession], [signInWithGoogle],
    navigation and resumptions, [isInitialized] starts [false], never goes
    from [true] to [false], goes from [false] to [true] at most once, has
    done so exactly once as soon as it is set, and is set once the bootstrap
    sequence has finished.  It is set only after that sequence has completed
    its work: at every point of the lifetime where the flag is set, the
    session fetch is among the requests sent since the mount and the
    bootstrap has nothing left to do but log (so the answer has been
    mirrored or the error recorded, the profile resolution has ended and
    [loading] has been cleared before the flag).  Run on its own, the
    bootstrap sequence returns normally with the flag set and [loading]
    cleared whether the session fetch yields a session, none, an error or
    throws, with the session and identity of an answer without error in the
    store. *)
Theorem initialized_set_exactly_once (w : world) (acts : list action) :
  let flag := initialized <$> exec acts (mount w) in
  head flag = Some false
  ∧ falls flag = 0
  ∧ (rises flag ≤ 1)%nat
  ∧ (∀ s, last (exec acts (mount w)) = Some s →
       (initialized s = true → rises flag = 1)
       ∧ (bootstrap_done s = true → initialized s = true))
  ∧ (∀ s, s ∈ exec acts (mount w) → initialized s = true →
       (∃ sent, requests (sys_world s) = requests w ++ sent
                ∧ GetSession ∈ sent)
       ∧ (∃ rest, tasks s !! 0 = Some rest
                  ∧ all_effects is_console_log rest))
  ∧ (∀ b w',
       let w'' := after b mount_getInitialSession w' in
       result b mount_getInitialSession w' = Normal ()
       ∧ isInitialized (state w'') = true
       ∧ loading (state w'') = false
       ∧ (∀ res, answer_getSession b = Normal res → gs_error res = None →
            session (state w'') = gs_session res
            ∧ user (state w'') = session_user <$> gs_session res)).
Proof.
  intros flag. subst flag.
  destruct (exec_initialized acts (mount w) (lifetime_invariant_mount w))
    as (s' & Hlast & Hinv & Hfalls & Hrises & _).
  destruct (exec_unfold acts (mount w)) as [rest Hrest].
  split_and!.
  - by rewrite Hrest.
  - exact Hfalls.
  - rewrite Hrises. destruct (_ && _); lia.
  - intros s Hs. rewrite Hlast in Hs. injection Hs as <-. split.
    + intros E. rewrite Hrises, E. reflexivity.
    + by apply bootstrap_done_initialized.
  - intros s Hs Hinit.
    pose proof (exec_bootstrap_order w acts (mount w) (bootstrap_order_mount w))
      as Hall.
    rewrite Forall_forall in Hall.
    destruct (Hall s Hs) as (boot & others & sent & Htasks & Hreq & _ & Hboot).
    rewrite Hinit in Hboot. destruct Hboot as [Hsent Hlogs]. split.
    + by exists sent.
    + exists boot. by rewrite Htasks.
  - intros b w'. cbv zeta. unfold mount_getInitialSession. split_and!.
    + apply returns_normally_unit, all_leaves_run, getInitialSession_returns.
    + apply initializes_run, getInitialSession_initializes.
    + apply getInitialSession_clears_loading.
    + intros res. apply getInitialSession_mirrors.
Qed.

Lemma initialized_set_exactly_once_witness :
  rises (initialized <$> exec sample_schedule (mount browser)) = 1
  ∧ falls (initialized <$> exec sample_schedule (mount browser)) = 0
  ∧ GetSession ∈ requests (sys_world
      (default (mount browser) (last (exec sample_schedule (mount browser))))).
Proof.
  pose proof (initialized_set_exactly_once browser sample_schedule) as H.
  cbv zeta in H. destruct H as (_ & Hfalls & _ & Hlast & Hwhen & _).
  split_and!; [| exact Hfalls |].
  - eapply Hlast; [vm_compute; reflexivity | reflexivity].
  - destruct (Hwhen (default (mount browser)
                       (last (exec sample_schedule (mount browser)))))
      as [(sent & Hreq & Hsent) _].
    + apply list_elem_of_In. vm_compute. tauto.
    + reflexivity.
    + rewrite Hreq. set_solver.
Defined.
